(** * Call-of-Duty-Statistics-Analyzer: a shallow embedding of [cod_stats.py]

    The script reads a CSV export of game sessions, derives a kill/death
    ratio per row, and writes a chart PDF and a paginated table PDF.  The
    two source files [cod_stats.py] and [cod-stats.py] hold the same code
    (the first one adds docstrings); line numbers below are those of
    [cod_stats.py].

    Modelling conventions.
    - A Python [str] is represented by its UTF-8 encoding, a [string] of
      bytes.  Equality of strings is equality of the encodings, and Python's
      ordering of strings (by code point) is the bytewise ordering of the
      encodings, [String.le].
    - A Python [int] is a [Z].
    - A Python [float] is modelled at two levels.  Where only the place of
      a number matters (which record, which row of the table, which artist
      of the chart), it is a rational [Q]: a finite value, with exact
      arithmetic.  What the code computes with floats (the ratio, the
      statistics of a series) is embedded a second time in [Binary64], over
      IEEE 754 doubles with their rounding, signed zeros, infinities and
      NaN; the properties of the numbers themselves are stated there.
    - A [dict] is a [gmap].  The script never depends on the iteration order
      of a dict: every consumer sorts the keys first.
    - Exceptions are values of [exn]; code that may raise returns a [result].
    - What the script writes to the file system is threaded through a
      [world]. *)

From Stdlib Require Import Ascii String QArith Qminmax Qabs SpecFloat.
From stdpp Require Import gmap strings list fin_maps sorting pretty.

Set Default Proof Using "Type".
Local Open Scope string_scope.
Local Open Scope list_scope.
Local Open Scope nat_scope.

(** ** Exceptions *)

Inductive exn : Set :=
  | KeyError
  | ValueError
  | TypeError
  | IndexError
  | ZeroDivisionError
  | OverflowError.

Inductive result (A : Type) : Type :=
  | Ok (a : A)
  | Raise (e : exn).
Arguments Ok {A} a.
Arguments Raise {A} e.

(** Sequencing: [x ← m; k] runs [m] and stops at the first exception. *)
Global Instance result_bind : MBind result := λ A B k m,
  match m with
  | Ok a => k a
  | Raise e => Raise e
  end.

Definition is_ok {A : Type} (m : result A) : Prop :=
  match m with Ok _ => True | Raise _ => False end.

(** [d[k]] on a dict, [l[i]] on a list. *)
Definition dict_item {V : Type} (d : gmap string V) (k : string) : result V :=
  match d !! k with
  | Some v => Ok v
  | None => Raise KeyError
  end.

Definition list_item {A : Type} (l : list A) (i : nat) : result A :=
  match l !! i with
  | Some v => Ok v
  | None => Raise IndexError
  end.

(** [[f(x) for x in l]], where [f] may raise. *)
Fixpoint comprehension {A B : Type} (f : A → result B) (l : list A) : result (list B) :=
  match l with
  | [] => Ok []
  | x :: l' => y ← f x; ys ← comprehension f l'; Ok (y :: ys)
  end.

(** ** Module constants (lines 18-27) *)

Definition OUTPUT_DIR : string := "output".
Definition GRAPH_PDF_NAME : string := "game_statistics_graph.pdf".
Definition TABLE_PDF_NAME : string := "game_statistics_data.pdf".
Definition KD_LABEL : string := "K/D Ratio".
Definition SKILL_LABEL : string := "Skill".
Definition KD_COLOR : string := "cornflowerblue".
Definition SKILL_COLOR : string := "indianred".
Definition XTICK_STEP : nat := 25.
Definition ROWS_PER_PAGE : nat := 40.
Definition TABLE_HEADERS : list string :=
  ["Timestamp"; "Skill"; "Kills"; "Deaths"; "K/D Ratio"].

(** ** Header spellings of the timestamp column

    The first key looked up on line 72 is written in the source with the
    three characters U+00EF U+00BB U+00BF in front of [UTC Timestamp]; in
    UTF-8 that prefix is the six bytes C3 AF C2 BB C2 BF. *)
Definition LATIN1_BOM_PREFIX : string :=
  String "195"%char (String "175"%char (String "194"%char
    (String "187"%char (String "194"%char (String "191"%char EmptyString))))).

Definition TS_KEY : string := "UTC Timestamp".
Definition TS_KEY_PREFIXED : string := LATIN1_BOM_PREFIX +:+ TS_KEY.

(** The byte-order marker is the single code point U+FEFF; in UTF-8 it is
    the three bytes EF BB BF.  A file opened with [encoding="utf-8"] (line
    68) keeps the marker as the first character of its first header
    field. *)
Definition BOM : string :=
  String "239"%char (String "187"%char (String "191"%char EmptyString)).

(** ** csv.DictReader

    The input is the content of the file after decoding and splitting into
    records.  The first record holds the field names.  Each later record
    that is not empty becomes a dict: [dict(zip(fieldnames, record))], and
    the field names left over when the record is short are bound to [None].
    Surplus fields of a long record go under the key [None], which no
    lookup of the script reaches, so they are dropped here. *)

Abbreviation csv_row := (gmap string (option string)).

Fixpoint zip_fields (fieldnames : list string) (record : list string)
  : list (string * option string) :=
  match fieldnames, record with
  | [], _ => []
  | k :: ks, [] => (k, None) :: zip_fields ks []
  | k :: ks, v :: vs => (k, Some v) :: zip_fields ks vs
  end.

Definition dict_of_items (items : list (string * option string)) : csv_row :=
  foldl (λ d kv, <[kv.1 := kv.2]> d) ∅ items.

Definition DictReader (records : list (list string)) : list csv_row :=
  match records with
  | [] => []
  | fieldnames :: rest =>
      map (λ record, dict_of_items (zip_fields fieldnames record))
          (filter (λ record, record ≠ []) rest)
  end.

(** [row.get(k)]: [None] when the key is absent. *)
Definition row_get (row : csv_row) (k : string) : option string :=
  match row !! k with
  | Some v => v
  | None => None
  end.

(** Truth value of an optional string: [None] and [""] are false. *)
Definition truthy (v : option string) : bool :=
  match v with
  | None => false
  | Some s => negb (String.eqb s "")
  end.

(** [a or b] *)
Definition py_or (a b : option string) : option string :=
  if truthy a then a else b.

(** ** Records and the dataset *)

Record game_record : Type := {
  Skill : Q;
  Kills : Z;
  Deaths : Z;
  KD : Q
}.

Abbreviation dataset := (gmap string game_record).

(** ** parse_kd_ratio (line 45) *)

Definition parse_kd_ratio (kills deaths : Z) : Q :=
  if (deaths =? 0)%Z then inject_Z kills
  else (inject_Z kills / inject_Z deaths)%Q.

Section Parser.

(** The builtins [int] and [float] applied to a string: [None] stands for
    [ValueError]. *)
Variable py_int : string → option Z.
Variable py_float : string → option Q.

Definition int_of (v : option string) : result Z :=
  match v with
  | None => Raise TypeError
  | Some s => match py_int s with Some n => Ok n | None => Raise ValueError end
  end.

Definition float_of (v : option string) : result Q :=
  match v with
  | None => Raise TypeError
  | Some s => match py_float s with Some x => Ok x | None => Raise ValueError end
  end.

(** The timestamp resolved on line 72. *)
Definition resolve_ts (row : csv_row) : option string :=
  py_or (row_get row TS_KEY_PREFIXED) (row_get row TS_KEY).

(** The record built on lines 75-83. *)
Definition parse_record (row : csv_row) : result game_record :=
  kills ← dict_item row "Kills" ≫= int_of;
  deaths ← dict_item row "Deaths" ≫= int_of;
  skill ← dict_item row "Skill" ≫= float_of;
  Ok {| Skill := skill; Kills := kills; Deaths := deaths;
        KD := parse_kd_ratio kills deaths |}.

(** A row that the loop stores: its timestamp resolves to a non-empty string
    and its three numeric fields are accepted. *)
Definition valid_row (row : csv_row) : Prop :=
  truthy (resolve_ts row) = true ∧ is_ok (parse_record row).

(** One iteration of the loop on lines 70-83. *)
Definition read_row (game_data : dataset) (row : csv_row) : result dataset :=
  let ts := resolve_ts row in
  if negb (truthy ts) then Ok game_data
  else
    match ts with
    | None => Ok game_data
    | Some ts =>
        r ← parse_record row;
        Ok (<[ts := r]> game_data)
    end.

Fixpoint read_rows (game_data : dataset) (rows : list csv_row) : result dataset :=
  match rows with
  | [] => Ok game_data
  | row :: rows' =>
      game_data' ← read_row game_data row;
      read_rows game_data' rows'
  end.

(** read_game_data (lines 67-84), on the records of the file. *)
Definition read_game_data (records : list (list string)) : result dataset :=
  read_rows ∅ (DictReader records).

End Parser.

(** ** Builtins on sequences of floats *)

Definition Qltb (x y : Q) : bool :=
  match (x ?= y)%Q with Lt => true | _ => false end.

Definition Qgtb (x y : Q) : bool := Qltb y x.

(** [min] and [max] are one routine in CPython, which takes the comparison
    [op] (less-than for [min], greater-than for [max]) and an optional key
    function.  The first item is the candidate; the key of each later item
    is computed once, in order, and the item replaces the candidate only
    when [op] holds of its key and the key of the candidate.  An empty
    argument raises [ValueError]. *)
Fixpoint min_max_from {A K : Type} (op : K → K → bool) (key : A → result K)
    (best : A) (bestk : K) (l : list A) : result A :=
  match l with
  | [] => Ok best
  | x :: l' =>
      k ← key x;
      if op k bestk then min_max_from op key x k l'
      else min_max_from op key best bestk l'
  end.

Definition min_max {A K : Type} (op : K → K → bool) (key : A → result K)
    (l : list A) : result A :=
  match l with
  | [] => Raise ValueError
  | x :: l' => k ← key x; min_max_from op key x k l'
  end.

Definition py_min (l : list Q) : result Q := min_max Qltb Ok l.
Definition py_max (l : list Q) : result Q := min_max Qgtb Ok l.

Definition py_min_key {A : Type} (key : A → result Q) (l : list A) : result A :=
  min_max Qltb key l.
Definition py_max_key {A : Type} (key : A → result Q) (l : list A) : result A :=
  min_max Qgtb key l.

(** [sum(l)]: starts from 0 and adds from the left. *)
Definition py_sum (l : list Q) : Q := foldl Qplus 0%Q l.

(** [x / n] for a float and a length. *)
Definition truediv (x : Q) (n : nat) : result Q :=
  match n with
  | O => Raise ZeroDivisionError
  | S _ => Ok (x / inject_Z (Z.of_nat n))%Q
  end.

(** [range(n)] *)
Definition py_range (n : nat) : list nat := seq 0 n.

(** [range(start, stop, step)] for a positive step. *)
Definition py_range_step (start stop step : nat) : list nat :=
  map (λ k, start + k * step) (seq 0 ((stop - start + step - 1) / step)).

(** [l[a:b]] for non-negative bounds. *)
Definition slice {A : Type} (l : list A) (a b : nat) : list A :=
  take (b - a) (drop a l).

(** ** compute_series_stats (lines 106-112) *)

Definition EPSILON : Q := 1 # 1000000000.

Definition compute_series_stats (series : list Q)
  : result (Q * Q * Q * Q * nat * nat) :=
  smin ← py_min series;
  smax ← py_max series;
  avg ← truediv (py_sum series) (length series);
  span ← py_max [Qabs smin; Qabs smax; EPSILON];
  min_idx ← py_min_key (list_item series) (py_range (length series));
  max_idx ← py_max_key (list_item series) (py_range (length series));
  Ok (smin, smax, avg, span, min_idx, max_idx).

(** ** Formatting *)

(** Rounding of a non-negative rational to the nearest integer, ties to the
    even one. *)
Definition round_half_even (x : Q) : Z :=
  let n := Qnum x in
  let d := Zpos (Qden x) in
  let f := (n / d)%Z in
  match (2 * (n mod d) ?= d)%Z with
  | Lt => f
  | Gt => (f + 1)%Z
  | Eq => if Z.even f then f else (f + 1)%Z
  end.

(** [f"{x:.2f}"] *)
Definition format_2f (x : Q) : string :=
  let c := round_half_even (Qabs x * 100) in
  let frac := (c mod 100)%Z in
  (if Qltb x 0 then "-" else "")
    +:+ pretty (c / 100)%Z +:+ "."
    +:+ (if (frac <? 10)%Z then "0" else "") +:+ pretty frac.

(** ** The chart (lines 129-133 and 221-255)

    A figure is recorded as what was drawn on it.  Each artist carries its
    legend label. *)

Inductive artist : Type :=
  | Line (xs : list nat) (ys : list Q) (color label : string)
  | Marker (x : nat) (y : Q) (color label : string)
  | HLine (y : Q) (color label : string).

Definition artist_label (a : artist) : string :=
  match a with
  | Line _ _ _ l | Marker _ _ _ l | HLine _ _ l => l
  end.

Record axes : Type := {
  ylabel : string;
  ylim : option (Q * Q);
  artists : list artist
}.

Record chart_figure : Type := {
  chart_title : string;
  ax1 : axes;
  ax2 : axes;
  legend : list string;
  xticks : list nat
}.

Definition new_axes (label : string) : axes :=
  {| ylabel := label; ylim := None; artists := [] |}.

Definition add_artist (ax : axes) (a : artist) : axes :=
  {| ylabel := ylabel ax; ylim := ylim ax; artists := artists ax ++ [a] |}.

Definition set_ylim (ax : axes) (lo hi : Q) : axes :=
  {| ylabel := ylabel ax; ylim := Some (lo, hi); artists := artists ax |}.

(** [ax.plot(xs, ys, ...)] refuses sequences of different lengths. *)
Definition plot_line (ax : axes) (xs : list nat) (ys : list Q)
    (color label : string) : result axes :=
  if decide (length xs = length ys)
  then Ok (add_artist ax (Line xs ys color label))
  else Raise ValueError.

(** annotate_series_stats (lines 129-133) *)
Definition annotate_series_stats (ax : axes) (indices : list nat)
    (series : list Q) (color label_prefix : string) : result axes :=
  '(smin, smax, avg, span, min_idx, max_idx) ← compute_series_stats series;
  let ax := set_ylim ax (- span)%Q span in
  x_min ← list_item indices min_idx;
  let ax := add_artist ax
    (Marker x_min smin color ("Min " +:+ label_prefix +:+ ": " +:+ format_2f smin)) in
  x_max ← list_item indices max_idx;
  let ax := add_artist ax
    (Marker x_max smax color ("Max " +:+ label_prefix +:+ ": " +:+ format_2f smax)) in
  Ok (add_artist ax
    (HLine avg color ("Avg " +:+ label_prefix +:+ ": " +:+ format_2f avg))).

(** generate_chart (lines 221-255) *)
Definition generate_chart (game_indices : list nat) (kd_series skill_series : list Q)
    (timestamps_sorted : list string) : result chart_figure :=
  ax1 ← plot_line (new_axes KD_LABEL) game_indices kd_series KD_COLOR KD_LABEL;
  ax2 ← plot_line (new_axes SKILL_LABEL) game_indices skill_series SKILL_COLOR SKILL_LABEL;
  ax1 ← match kd_series with
        | [] => Ok ax1
        | _ :: _ => annotate_series_stats ax1 game_indices kd_series KD_COLOR KD_LABEL
        end;
  ax2 ← match skill_series with
        | [] => Ok ax2
        | _ :: _ => annotate_series_stats ax2 game_indices skill_series SKILL_COLOR SKILL_LABEL
        end;
  Ok {| chart_title := "Game Statistics Over Time";
        ax1 := ax1;
        ax2 := ax2;
        legend := map artist_label (artists ax1) ++ map artist_label (artists ax2);
        xticks := py_range_step 1 (length timestamps_sorted + 1) XTICK_STEP |}.

(** ** The table (lines 166-199) *)

Record table_figure : Type := {
  table_title : string;
  cellText : list (list string)
}.

(** The row built on lines 177-184. *)
Definition table_row (game_data : dataset) (timestamp : string) : result (list string) :=
  data ← dict_item game_data timestamp;
  Ok [timestamp;
      format_2f (Skill data);
      pretty (Kills data);
      pretty (Deaths data);
      format_2f (KD data)].

(** The figure built by one iteration of the loop (lines 169-196). *)
Definition table_page (game_data : dataset) (data_rows : list string)
    (total_pages page : nat) : result table_figure :=
  let title := "Game Data Table - Page " +:+ pretty (page + 1)
                 +:+ " of " +:+ pretty total_pages in
  let start_idx := page * ROWS_PER_PAGE in
  let end_idx := Nat.min ((page + 1) * ROWS_PER_PAGE) (length data_rows) in
  let current_rows := slice data_rows start_idx end_idx in
  rows ← comprehension (table_row game_data) current_rows;
  Ok {| table_title := title; cellText := TABLE_HEADERS :: rows |}.

(** ** The world: PDF documents on disk

    [savefig_log] records every page handed to a PDF backend, with the path
    of the document it was written to, in call order. *)

Inductive pdf_page : Type :=
  | ChartPage (fig : chart_figure)
  | TablePage (fig : table_figure).

Record world : Type := {
  files : gmap string (list pdf_page);
  savefig_log : list (string * pdf_page)
}.

Definition empty_world : world :=
  {| files := ∅; savefig_log := [] |}.

(** [with PdfPages(path) as pdf: ...]: entering the block starts a new
    document for [path]; leaving it writes the document, made of the pages
    saved inside the block, over whatever [path] held before. *)
Definition with_PdfPages (output_path : string) (saved : list pdf_page)
    (w : world) : world :=
  {| files := <[output_path := saved]> (files w);
     savefig_log := savefig_log w ++ map (pair output_path) saved |}.

(** [sorted(d.keys())] *)
Definition sorted_keys {V : Type} (d : gmap string V) : list string :=
  merge_sort String.le (elements (dom d)).

(** save_plot_pdf (lines 148-151) *)
Definition save_plot_pdf (fig : chart_figure) (output_path : string)
    (w : world) : world :=
  with_PdfPages output_path [ChartPage fig] w.

(** The loop of save_table_pdf over the page numbers (lines 168-199). *)
Fixpoint save_table_pages (game_data : dataset) (data_rows : list string)
    (total_pages : nat) (pages : list nat) (output_path : string)
    (w : world) : result world :=
  match pages with
  | [] => Ok w
  | page :: pages' =>
      fig ← table_page game_data data_rows total_pages page;
      let w := with_PdfPages output_path [TablePage fig] w in
      save_table_pages game_data data_rows total_pages pages' output_path w
  end.

(** save_table_pdf (lines 166-199) *)
Definition save_table_pdf (game_data : dataset) (output_path : string)
    (w : world) : result world :=
  let data_rows := sorted_keys game_data in
  let total_pages := (length data_rows + ROWS_PER_PAGE - 1) / ROWS_PER_PAGE in
  save_table_pages game_data data_rows total_pages (py_range total_pages)
    output_path w.

(** ** The series of main (lines 270-273) *)

Definition extract_series (game_data : dataset)
  : result (list string * list Q * list Q * list nat) :=
  let timestamps_sorted := sorted_keys game_data in
  kd_series ← comprehension (λ ts, r ← dict_item game_data ts; Ok (KD r))
                 timestamps_sorted;
  skill_series ← comprehension (λ ts, r ← dict_item game_data ts; Ok (Skill r))
                    timestamps_sorted;
  let game_indices := seq 1 (length timestamps_sorted) in
  Ok (timestamps_sorted, kd_series, skill_series, game_indices).

(** ** The driver (lines 259-283)

    A process has, besides the PDF documents, the directories it created
    and what it wrote to standard output: the prompt of [input] and each
    printed line. *)

Record process : Type := {
  pdfs : world;
  dirs : gset string;
  stdout : list string
}.

Definition print (line : string) (p : process) : process :=
  {| pdfs := pdfs p; dirs := dirs p; stdout := stdout p ++ [line] |}.

(** [os.makedirs(d, exist_ok=True)] *)
Definition makedirs (d : string) (p : process) : process :=
  {| pdfs := pdfs p; dirs := {[d]} ∪ dirs p; stdout := stdout p |}.

Definition with_pdfs (w : world) (p : process) : process :=
  {| pdfs := w; dirs := dirs p; stdout := stdout p |}.

(** The two characters that line 259 strips: the double quote (code 34)
    and the apostrophe (code 39). *)
Definition is_quote (c : ascii) : bool :=
  Ascii.eqb c "034"%char || Ascii.eqb c "039"%char.

Fixpoint lstrip_quotes (s : string) : string :=
  match s with
  | EmptyString => EmptyString
  | String c s' => if is_quote c then lstrip_quotes s' else s
  end.

Fixpoint rstrip_quotes (s : string) : string :=
  match s with
  | EmptyString => EmptyString
  | String c s' =>
      match rstrip_quotes s' with
      | EmptyString => if is_quote c then EmptyString else String c EmptyString
      | r => String c r
      end
  end.

(** [s.strip(QUOTES)]: quotes are removed from both ends and nowhere else. *)
Definition strip_quotes (s : string) : string :=
  rstrip_quotes (lstrip_quotes s).

Section Driver.

Variable py_int : string → option Z.
Variable py_float : string → option Q.

(** [os.sep], the separator that [os.path.join] puts between a directory
    and a file name. *)
Variable sep : string.

Definition path_join (a b : string) : string := a +:+ sep +:+ b.

(** main (lines 259-283).  [disk] holds the decoded records of every file
    that exists; [answer] is the line typed at the prompt. *)
Definition main (disk : gmap string (list (list string))) (answer : string)
    (p : process) : result process :=
  let p := {| pdfs := pdfs p; dirs := dirs p;
              stdout := stdout p ++ ["Enter file path: "] |} in
  let file_path := strip_quotes answer in
  match disk !! file_path with
  | None => Ok (print ("Error: File '" +:+ file_path +:+ "' does not exist.") p)
  | Some records =>
      let p := makedirs OUTPUT_DIR p in
      game_data ← read_game_data py_int py_float records;
      match size game_data with
      | O => Ok (print "No valid data found in the CSV." p)
      | S _ =>
          '(timestamps_sorted, kd_series, skill_series, game_indices)
            ← extract_series game_data;
          fig ← generate_chart game_indices kd_series skill_series timestamps_sorted;
          let graph_pdf_path := path_join OUTPUT_DIR GRAPH_PDF_NAME in
          let p := with_pdfs (save_plot_pdf fig graph_pdf_path (pdfs p)) p in
          let table_pdf_path := path_join OUTPUT_DIR TABLE_PDF_NAME in
          w ← save_table_pdf game_data table_pdf_path (pdfs p);
          Ok (print ("PDF saved as " +:+ graph_pdf_path) (with_pdfs w p))
      end
  end.

End Driver.

Definition empty_process : process :=
  {| pdfs := empty_world; dirs := ∅; stdout := [] |}.

(** ** Binary64: the arithmetic of the script over IEEE 754 doubles

    A double is a [spec_float] of the standard library, with the operations
    of its specification of binary64 arithmetic (53 bits of precision,
    rounding to nearest, ties to even). *)

Module Binary64.

Abbreviation float := spec_float.

Definition prec : Z := 53.
Definition emax : Z := 1024.

Definition fadd : float → float → float := SFadd prec emax.
Definition fdiv : float → float → float := SFdiv prec emax.
Definition fabs : float → float := SFabs.

(** [x < y], [x > y] and [x <= y]; all three are false when an operand is
    NaN. *)
Definition flt (x y : float) : bool := SFltb x y.
Definition fgt (x y : float) : bool := SFltb y x.
Definition fle (x y : float) : bool := SFleb x y.

Definition is_nan (x : float) : bool :=
  match x with S754_nan => true | _ => false end.


Definition zero : float := S754_zero false.

(** The value of a finite double, as a rational. *)
Definition float_value (x : float) : Q :=
  match x with
  | S754_finite s m e =>
      ((if s then - inject_Z (Zpos m) else inject_Z (Zpos m)) * 2 ^ e)%Q
  | _ => 0%Q
  end.

(** The double nearest to an integer; [float(n)] raises [OverflowError]
    when that is beyond the largest double. *)
Definition round_int (n : Z) : float := binary_normalize prec emax n 0 false.

Definition float_of_int (n : Z) : result float :=
  match round_int n with
  | S754_infinity _ => Raise OverflowError
  | x => Ok x
  end.

(** The double nearest to the quotient of two integers, the second not
    zero.  A zero quotient has the sign of the divisor. *)
Definition round_ratio (a b : Z) : float :=
  match a with
  | Z0 => S754_zero (b <? 0)%Z
  | _ => fdiv (S754_finite (a <? 0)%Z (Z.to_pos (Z.abs a)) 0)
              (S754_finite (b <? 0)%Z (Z.to_pos (Z.abs b)) 0)
  end.

(** [a / b] on two ints. *)
Definition int_truediv (a b : Z) : result float :=
  if (b =? 0)%Z then Raise ZeroDivisionError
  else
    match round_ratio a b with
    | S754_infinity _ => Raise OverflowError
    | x => Ok x
    end.

(** parse_kd_ratio (line 45) *)
Definition parse_kd_ratio (kills deaths : Z) : result float :=
  if (deaths =? 0)%Z then float_of_int kills else int_truediv kills deaths.

Record game_record : Type := {
  Skill : float;
  Kills : Z;
  Deaths : Z;
  KD : float
}.

Section Parser.

(** The builtins [int] and [float] applied to a string: [None] stands for
    [ValueError].  [float] may return any double, NaN and the infinities
    included. *)
Variable py_int : string → option Z.
Variable py_float : string → option float.

Definition float_of (v : option string) : result float :=
  match v with
  | None => Raise TypeError
  | Some s => match py_float s with Some x => Ok x | None => Raise ValueError end
  end.

(** The record built on lines 75-83; the ratio is computed last. *)
Definition parse_record (row : csv_row) : result game_record :=
  kills ← dict_item row "Kills" ≫= int_of py_int;
  deaths ← dict_item row "Deaths" ≫= int_of py_int;
  skill ← dict_item row "Skill" ≫= float_of;
  ratio ← parse_kd_ratio kills deaths;
  Ok {| Skill := skill; Kills := kills; Deaths := deaths; KD := ratio |}.

(** One iteration of the loop on lines 70-83. *)
Definition read_row (game_data : gmap string game_record) (row : csv_row)
  : result (gmap string game_record) :=
  let ts := resolve_ts row in
  if negb (truthy ts) then Ok game_data
  else
    match ts with
    | None => Ok game_data
    | Some ts =>
        r ← parse_record row;
        Ok (<[ts := r]> game_data)
    end.

Fixpoint read_rows (game_data : gmap string game_record) (rows : list csv_row)
  : result (gmap string game_record) :=
  match rows with
  | [] => Ok game_data
  | row :: rows' =>
      game_data' ← read_row game_data row;
      read_rows game_data' rows'
  end.

(** read_game_data (lines 67-84), on the records of the file. *)
Definition read_game_data (records : list (list string))
  : result (gmap string game_record) :=
  read_rows ∅ (DictReader records).

End Parser.

(** The literal [1e-9]: the double nearest to 1/10^9. *)
Definition EPSILON : float := S754_finite false 4835703278458517 (-82).

(** [x / n] for a float and a length. *)
Definition truediv (x : float) (n : nat) : result float :=
  match n with
  | O => Raise ZeroDivisionError
  | S _ => Ok (fdiv x (round_int (Z.of_nat n)))
  end.

(** Floats added from the left, starting from zero. *)
Definition sum_left (l : list float) : float := foldl fadd zero l.

Section Statistics.

(** [sum] on a list of floats.  How the builtin rounds is the business of
    the interpreter: before version 3.12 CPython adds from the left, as
    [sum_left] does, and later versions compensate the rounding errors. *)
Variable py_sum : list float → float.

(** compute_series_stats (lines 106-112) *)
Definition compute_series_stats (series : list float)
  : result (float * float * float * float * nat * nat) :=
  smin ← min_max flt Ok series;
  smax ← min_max fgt Ok series;
  avg ← truediv (py_sum series) (length series);
  span ← min_max fgt Ok [fabs smin; fabs smax; EPSILON];
  min_idx ← min_max flt (list_item series) (py_range (length series));
  max_idx ← min_max fgt (list_item series) (py_range (length series));
  Ok (smin, smax, avg, span, min_idx, max_idx).

End Statistics.

End Binary64.

(** ** Specification predicates *)

(** [i] is the first position of [l] that holds an extreme value [v]: no
    value of [l] beats [v], and [v] beats every value before [i]. *)
Definition first_extreme {K : Type} (op : K → K → bool) (l : list K) (i : nat)
    (v : K) : Prop :=
  l !! i = Some v ∧
  ∀ k w, l !! k = Some w → op w v = false ∧ (k < i → op v w = true).

(** Rows that agree on the five columns that the loop of the parser reads. *)
Definition same_columns (row1 row2 : csv_row) : Prop :=
  Forall (λ k, row1 !! k = row2 !! k)
    [TS_KEY_PREFIXED; TS_KEY; "Kills"; "Deaths"; "Skill"].

(** ** Sample inputs

    A small instance of [int] and [float] for the examples: unsigned or
    negated ASCII decimal integers, and unsigned decimals with an optional
    fractional part. *)

Fixpoint decimal_digits (acc : N) (s : string) : option N :=
  match s with
  | EmptyString => Some acc
  | String c s' =>
      match Ascii.is_nat c with
      | Some d => decimal_digits (acc * 10 + N.of_nat d) s'
      | None => None
      end
  end.

Definition sample_int (s : string) : option Z :=
  match s with
  | EmptyString => None
  | String "-"%char EmptyString => None
  | String "-"%char s' => (λ n, - Z.of_N n)%Z <$> decimal_digits 0 s'
  | _ => Z.of_N <$> decimal_digits 0 s
  end.

Fixpoint split_dot (s : string) : string * option string :=
  match s with
  | EmptyString => (EmptyString, None)
  | String "."%char s' => (EmptyString, Some s')
  | String c s' => let '(a, b) := split_dot s' in (String c a, b)
  end.

Definition sample_float (s : string) : option Q :=
  let '(ip, fp) := split_dot s in
  match ip, fp with
  | EmptyString, _ => None
  | _, None => (λ n, inject_Z (Z.of_N n)) <$> decimal_digits 0 ip
  | _, Some f =>
      i ← decimal_digits 0 ip;
      n ← decimal_digits 0 f;
      Some (Qred (inject_Z (Z.of_N i)
                  + (Z.of_N n # Pos.of_nat (10 ^ String.length f))))
  end.

(** The same decimals as doubles: each is rounded to the nearest double. *)
Definition sample_double (s : string) : option Binary64.float :=
  match sample_float s with
  | Some q => Some (Binary64.round_ratio (Qnum q) (Zpos (Qden q)))
  | None => None
  end.

(** The doubles 0.1 and 1.0. *)
Definition tenth : Binary64.float := S754_finite false 7205759403792794 (-56).
Definition one : Binary64.float := S754_finite false 4503599627370496 (-52).

(** Five small integers as doubles, with the least and the greatest twice. *)
Definition sample_series : list Binary64.float :=
  map Binary64.round_int [3; 1; 1; 7; 7]%Z.

(** Three small integers of both signs as doubles. *)
Definition sample_signed_series : list Binary64.float :=
  map Binary64.round_int [-3; 1; 2]%Z.

(** The three-row input of the round-trip scenario. *)
Definition sample_header : list string := ["UTC Timestamp"; "Skill"; "Kills"; "Deaths"].

Definition sample_records : list (list string) :=
  [ sample_header;
    ["T1"; "1.50"; "10"; "2"];
    ["T2"; "2.00"; "0"; "0"];
    ["T3"; "0.75"; "5"; "5"] ].

Definition sample_dataset : dataset :=
  <["T3" := {| Skill := 3 # 4; Kills := 5; Deaths := 5; KD := 5 / 5 |}]>
  (<["T2" := {| Skill := 2; Kills := 0; Deaths := 0; KD := 0 |}]>
  (<["T1" := {| Skill := 3 # 2; Kills := 10; Deaths := 2; KD := 10 / 2 |}]> ∅)).

(** The same dataset with its numbers as doubles: skills 1.5, 2.0 and 0.75,
    ratios 5.0, 0.0 and 1.0. *)
Definition sample_dataset64 : gmap string Binary64.game_record :=
  <["T3" := {| Binary64.Skill := S754_finite false 6755399441055744 (-53);
               Binary64.Kills := 5; Binary64.Deaths := 5;
               Binary64.KD := one |}]>
  (<["T2" := {| Binary64.Skill := S754_finite false 4503599627370496 (-51);
                Binary64.Kills := 0; Binary64.Deaths := 0;
                Binary64.KD := S754_zero false |}]>
  (<["T1" := {| Binary64.Skill := S754_finite false 6755399441055744 (-52);
                Binary64.Kills := 10; Binary64.Deaths := 2;
                Binary64.KD := S754_finite false 5629499534213120 (-50) |}]> ∅)).

(** The same three rows under a header whose first field starts with the
    byte-order marker, as a UTF-8 file saved with a marker decodes. *)
Definition bom_records : list (list string) :=
  [ [BOM +:+ "UTC Timestamp"; "Skill"; "Kills"; "Deaths"];
    ["T1"; "1.50"; "10"; "2"];
    ["T2"; "2.00"; "0"; "0"];
    ["T3"; "0.75"; "5"; "5"] ].

(** The same header with the six-byte prefix that the source spells out. *)
Definition latin1_bom_records : list (list string) :=
  [ [TS_KEY_PREFIXED; "Skill"; "Kills"; "Deaths"];
    ["T1"; "1.50"; "10"; "2"];
    ["T2"; "2.00"; "0"; "0"];
    ["T3"; "0.75"; "5"; "5"] ].

(** Three rows, the first and the last under the same timestamp. *)
Definition duplicate_records : list (list string) :=
  [ sample_header;
    ["T1"; "1.50"; "10"; "2"];
    ["T2"; "2.00"; "0"; "0"];
    ["T1"; "0.75"; "5"; "5"] ].

(** Forty-one games, [G100] to [G140]: one more than a page of the table
    holds. *)
Definition records41 : list (list string) :=
  sample_header
  :: map (λ i, ["G" +:+ pretty (100 + i); "1.50"; pretty i; "1"]) (seq 0 41).

(** The dataset parsed from them, and the two pages of its table. *)
Definition dataset41 : dataset :=
  list_to_map
    (map (λ i, ("G" +:+ pretty (100 + i),
                {| Skill := 3 # 2; Kills := Z.of_nat i; Deaths := 1;
                   KD := inject_Z (Z.of_nat i) / 1 |}))
         (seq 0 41)).

Definition table41_page1 : table_figure :=
  {| table_title := "Game Data Table - Page 1 of 2";
     cellText :=
       TABLE_HEADERS
       :: map (λ i, ["G" +:+ pretty (100 + i); "1.50"; pretty i; "1";
                     pretty i +:+ ".00"])
              (seq 0 40) |}.

Definition table41_page2 : table_figure :=
  {| table_title := "Game Data Table - Page 2 of 2";
     cellText := [TABLE_HEADERS; ["G140"; "1.50"; "40"; "1"; "40.00"]] |}.

(** The chart of the three-row input. *)
Definition sample_chart : chart_figure :=
  {| chart_title := "Game Statistics Over Time";
     ax1 := {| ylabel := "K/D Ratio";
               ylim := Some (- (10 # 2), 10 # 2)%Q;
               artists :=
                 [Line [1; 2; 3] [10 # 2; 0; 5 # 5]%Q "cornflowerblue" "K/D Ratio";
                  Marker 2 0 "cornflowerblue" "Min K/D Ratio: 0.00";
                  Marker 1 (10 # 2) "cornflowerblue" "Max K/D Ratio: 5.00";
                  HLine (60 # 30) "cornflowerblue" "Avg K/D Ratio: 2.00"] |};
     ax2 := {| ylabel := "Skill";
               ylim := Some (- 2, 2)%Q;
               artists :=
                 [Line [1; 2; 3] [3 # 2; 2; 3 # 4]%Q "indianred" "Skill";
                  Marker 3 (3 # 4) "indianred" "Min Skill: 0.75";
                  Marker 2 2 "indianred" "Max Skill: 2.00";
                  HLine (34 # 24) "indianred" "Avg Skill: 1.42"] |};
     legend := ["K/D Ratio"; "Min K/D Ratio: 0.00"; "Max K/D Ratio: 5.00";
                "Avg K/D Ratio: 2.00"; "Skill"; "Min Skill: 0.75";
                "Max Skill: 2.00"; "Avg Skill: 1.42"];
     xticks := [1] |}.

(** * Properties *)

Lemma bind_Ok {A B : Type} (a : A) (k : A → result B) : (Ok a ≫= k) = k a.
Proof. reflexivity. Qed.

Lemma bind_Raise {A B : Type} (e : exn) (k : A → result B) :
  (Raise e ≫= k) = Raise e.
Proof. reflexivity. Qed.

Lemma bind_inv {A B : Type} (m : result A) (k : A → result B) (b : B) :
  (m ≫= k) = Ok b → ∃ a, m = Ok a ∧ k a = Ok b.
Proof. destruct m as [a|e]; [eauto | discriminate]. Qed.

Lemma truthy_Some (v : option string) :
  truthy v = true ↔ ∃ s, v = Some s ∧ s ≠ "".
Proof.
  destruct v as [s|]; simpl.
  - rewrite negb_true_iff, String.eqb_neq. naive_solver.
  - naive_solver.
Qed.

Lemma truthy_false (v : option string) :
  truthy v = false ↔ v = None ∨ v = Some "".
Proof.
  destruct v as [s|]; simpl.
  - rewrite negb_false_iff, String.eqb_eq. naive_solver.
  - naive_solver.
Qed.

(** ** The parser *)

Section ParserFacts.

Variable py_int : string → option Z.
Variable py_float : string → option Q.

#[local] Abbreviation read_row := (read_row py_int py_float).
#[local] Abbreviation read_rows := (read_rows py_int py_float).
#[local] Abbreviation parse_record := (parse_record py_int py_float).
#[local] Abbreviation valid_row := (valid_row py_int py_float).

Lemma read_row_skip (d : dataset) (row : csv_row) :
  truthy (resolve_ts row) = false → read_row d row = Ok d.
Proof. intros H. unfold read_row. by rewrite H. Qed.

Lemma read_row_store (d : dataset) (row : csv_row) (ts : string) :
  resolve_ts row = Some ts → ts ≠ "" →
  read_row d row = (r ← parse_record row; Ok (<[ts := r]> d)).
Proof.
  intros Hts Hne. unfold read_row. rewrite Hts.
  assert (truthy (Some ts) = true) as -> by (apply truthy_Some; eauto).
  reflexivity.
Qed.

Lemma read_rows_app (d : dataset) (rows1 rows2 : list csv_row) :
  read_rows d (rows1 ++ rows2) = (d' ← read_rows d rows1; read_rows d' rows2).
Proof.
  revert d. induction rows1 as [|row rows1 IH]; intros d; simpl; [done|].
  destruct (read_row d row) as [d'|e]; simpl; [apply IH | done].
Qed.

(** Every stored record was parsed from a row with that timestamp. *)
Lemma read_rows_provenance (rows : list csv_row) (d0 d : dataset)
    (ts : string) (r : game_record) :
  read_rows d0 rows = Ok d → d !! ts = Some r →
  d0 !! ts = Some r ∨
  ∃ row, row ∈ rows ∧ resolve_ts row = Some ts ∧ ts ≠ "" ∧ parse_record row = Ok r.
Proof.
  revert d0. induction rows as [|row rows IH]; intros d0 Hrun Hd; simpl in Hrun.
  { left. congruence. }
  apply bind_inv in Hrun as (d1 & Hrow & Hrest).
  destruct (IH _ Hrest Hd) as [H1|(row' & Hin & ?)].
  2:{ right. exists row'. split; [by right | done]. }
  destruct (truthy (resolve_ts row)) eqn:Htr.
  - apply truthy_Some in Htr as (ts' & Hts & Hne).
    rewrite (read_row_store _ _ _ Hts Hne) in Hrow.
    apply bind_inv in Hrow as (r' & Hparse & [= <-]).
    destruct (decide (ts' = ts)) as [->|Hneq].
    + rewrite lookup_insert_eq in H1. injection H1 as ->.
      right. exists row. split; [by left | done].
    + rewrite lookup_insert_ne in H1 by done. by left.
  - rewrite read_row_skip in Hrow by done. injection Hrow as ->. by left.
Qed.

(** Rows with another timestamp leave the entry of [ts] alone. *)
Lemma read_rows_other (rows : list csv_row) (d0 d : dataset) (ts : string) :
  read_rows d0 rows = Ok d →
  Forall (λ row, resolve_ts row ≠ Some ts) rows →
  d !! ts = d0 !! ts.
Proof.
  revert d0. induction rows as [|row rows IH]; intros d0 Hrun Hall; simpl in Hrun.
  { congruence. }
  apply bind_inv in Hrun as (d1 & Hrow & Hrest).
  inversion Hall as [|?? Hrow_ne Hall']; subst.
  rewrite (IH _ Hrest Hall').
  destruct (truthy (resolve_ts row)) eqn:Htr.
  - apply truthy_Some in Htr as (ts' & Hts & Hne).
    rewrite (read_row_store _ _ _ Hts Hne) in Hrow.
    apply bind_inv in Hrow as (r' & Hparse & [= <-]).
    apply lookup_insert_ne. congruence.
  - rewrite read_row_skip in Hrow by done. by injection Hrow as ->.
Qed.

(** Valid rows never raise, and the keys of the result are the keys at the
    start together with the timestamps of the rows. *)
Lemma read_rows_valid (rows : list csv_row) (d0 : dataset) :
  Forall valid_row rows →
  ∃ d, read_rows d0 rows = Ok d ∧
       dom d = dom d0 ∪ list_to_set (omap resolve_ts rows).
Proof.
  revert d0. induction rows as [|row rows IH]; intros d0 Hall; simpl.
  { exists d0. split; [done | set_solver]. }
  inversion Hall as [|?? [Htr Hok] Hall']; subst.
  apply truthy_Some in Htr as (ts & Hts & Hne).
  rewrite (read_row_store _ _ _ Hts Hne), Hts.
  destruct (parse_record row) as [r|e]; [|done]. simpl.
  destruct (IH (<[ts := r]> d0) Hall') as (d & Hd & Hdom).
  exists d. split; [done|]. rewrite Hdom, dom_insert_L. set_solver.
Qed.

Lemma omap_cons_Some {A B : Type} (f : A → option B) (x : A) (l : list A) (y : B) :
  f x = Some y → omap f (x :: l) = y :: omap f l.
Proof. intros H. cbn. by rewrite H. Qed.

Lemma valid_rows_timestamps (rows : list csv_row) :
  Forall valid_row rows → length (omap resolve_ts rows) = length rows.
Proof.
  induction 1 as [|row rows [Htr _] _ IH]; simpl; [done|].
  apply truthy_Some in Htr as (ts & -> & _). simpl. f_equal. exact IH.
Qed.

(** *** Keys of a dict, sorted *)

Lemma sorted_keys_perm {V : Type} (d : gmap string V) :
  sorted_keys d ≡ₚ elements (dom d).
Proof. apply merge_sort_Permutation. Qed.

Lemma sorted_keys_length {V : Type} (d : gmap string V) :
  length (sorted_keys d) = size d.
Proof. by rewrite sorted_keys_perm, <- size_dom. Qed.

Lemma sorted_keys_elem {V : Type} (d : gmap string V) (k : string) :
  k ∈ sorted_keys d ↔ is_Some (d !! k).
Proof. by rewrite sorted_keys_perm, elem_of_elements, elem_of_dom. Qed.

Lemma sorted_keys_NoDup {V : Type} (d : gmap string V) : NoDup (sorted_keys d).
Proof. rewrite sorted_keys_perm. apply NoDup_elements. Qed.

(** *** Rows as DictReader builds them *)

Lemma zip_fields_keys (fieldnames record : list string) :
  (zip_fields fieldnames record).*1 = fieldnames.
Proof.
  revert record. induction fieldnames as [|k ks IH]; intros [|v vs]; simpl;
    by rewrite ?IH.
Qed.

Lemma foldl_insert_notin (items : list (string * option string)) (d : csv_row)
    (k : string) :
  k ∉ items.*1 → foldl (λ d kv, <[kv.1 := kv.2]> d) d items !! k = d !! k.
Proof.
  revert d. induction items as [|[k' v] items IH]; intros d Hk; simpl; [done|].
  rewrite fmap_cons, not_elem_of_cons in Hk. destruct Hk as [Hne Hk]. simpl in Hne.
  rewrite IH by done. by apply lookup_insert_ne.
Qed.

Lemma dict_row_absent (fieldnames record : list string) (k : string) :
  k ∉ fieldnames → row_get (dict_of_items (zip_fields fieldnames record)) k = None.
Proof.
  intros Hk. unfold row_get, dict_of_items.
  rewrite foldl_insert_notin by (by rewrite zip_fields_keys).
  by rewrite lookup_empty.
Qed.

Lemma dict_row_first (k : string) (others : list string) (v : string)
    (vals : list string) :
  k ∉ others →
  row_get (dict_of_items (zip_fields (k :: others) (v :: vals))) k = Some v.
Proof.
  intros Hk. unfold row_get, dict_of_items. simpl.
  rewrite foldl_insert_notin by (by rewrite zip_fields_keys).
  by rewrite lookup_insert_eq.
Qed.

(** Under a header that spells the timestamp column plainly, the first
    field of a record is its timestamp. *)
Lemma plain_header_resolved (others vals : list string) (ts : string) :
  TS_KEY ∉ others → TS_KEY_PREFIXED ∉ others →
  resolve_ts (dict_of_items (zip_fields (TS_KEY :: others) (ts :: vals))) = Some ts.
Proof.
  intros H1 H2. unfold resolve_ts.
  rewrite dict_row_first by done.
  rewrite dict_row_absent; [done|].
  apply not_elem_of_cons. split; [by vm_compute | done].
Qed.

(** So it is under a header that starts with the six-byte prefix of the
    source. *)
Lemma latin1_prefixed_header_resolved (others vals : list string) (ts : string) :
  ts ≠ "" →
  TS_KEY_PREFIXED ∉ others →
  resolve_ts (dict_of_items (zip_fields (TS_KEY_PREFIXED :: others) (ts :: vals)))
  = Some ts.
Proof.
  intros Hne H2. unfold resolve_ts.
  rewrite dict_row_first by done. unfold py_or.
  assert (truthy (Some ts) = true) as -> by (apply truthy_Some; eauto).
  done.
Qed.

(** A header that offers neither spelling resolves no timestamp at all. *)
Lemma unknown_header_unresolved (fieldnames : list string)
    (rest : list (list string)) :
  TS_KEY ∉ fieldnames → TS_KEY_PREFIXED ∉ fieldnames →
  Forall (λ row, resolve_ts row = None) (DictReader (fieldnames :: rest)).
Proof.
  intros H1 H2. unfold DictReader. apply Forall_map, Forall_forall.
  intros record _. simpl. unfold resolve_ts. by rewrite !dict_row_absent.
Qed.

Lemma read_rows_all_skipped (rows : list csv_row) (d : dataset) :
  Forall (λ row, truthy (resolve_ts row) = false) rows → read_rows d rows = Ok d.
Proof.
  induction 1 as [|row rows Hrow _ IH]; simpl; [done|].
  by rewrite read_row_skip.
Qed.

(** Every row of a file whose timestamp column is named with the
    byte-order marker in front is dropped. *)
Lemma bom_header_drops_rows (others : list string) (rest : list (list string)) :
  TS_KEY ∉ others → TS_KEY_PREFIXED ∉ others →
  read_game_data py_int py_float (((BOM +:+ TS_KEY) :: others) :: rest) = Ok ∅.
Proof.
  intros H1 H2. unfold read_game_data. apply read_rows_all_skipped.
  eapply Forall_impl.
  - apply unknown_header_unresolved.
    + apply not_elem_of_cons. split; [by vm_compute | done].
    + apply not_elem_of_cons. split; [by vm_compute | done].
  - by intros row ->.
Qed.

(** C10: a row whose resolved timestamp is the empty string leaves the
    dataset as it is, whatever its other fields hold, as does the same row
    with both timestamp columns removed; dropping the row from the input
    does not change the result of the parse. *)
Theorem C10_empty_timestamp_skipped (row : csv_row) (d : dataset)
    (before after : list csv_row) :
  resolve_ts row = Some "" →
  read_row d row = Ok d ∧
  read_row d (delete TS_KEY (delete TS_KEY_PREFIXED row)) = read_row d row ∧
  resolve_ts (delete TS_KEY (delete TS_KEY_PREFIXED row)) = None ∧
  read_rows d (before ++ row :: after) = read_rows d (before ++ after).
Proof.
  intros Hts.
  assert (read_row d row = Ok d) as Hskip.
  { apply read_row_skip. rewrite Hts. reflexivity. }
  assert (resolve_ts (delete TS_KEY (delete TS_KEY_PREFIXED row)) = None) as Habs.
  { unfold resolve_ts, row_get.
    rewrite lookup_delete_ne, lookup_delete_eq by done.
    by rewrite lookup_delete_eq. }
  split; [done|]. split; [|split; [done|]].
  - rewrite Hskip. apply read_row_skip. by rewrite Habs.
  - rewrite !read_rows_app. destruct (read_rows d before) as [d'|e]; [|done].
    simpl. rewrite read_row_skip by (by rewrite Hts). reflexivity.
Qed.

End ParserFacts.

Lemma C10_empty_timestamp_skipped_witness :
  let row : csv_row := {[ TS_KEY := Some ""; "Kills" := Some "many" ]} in
  read_row sample_int sample_float sample_dataset row = Ok sample_dataset ∧
  read_row sample_int sample_float sample_dataset
    (delete TS_KEY (delete TS_KEY_PREFIXED row))
  = read_row sample_int sample_float sample_dataset row ∧
  resolve_ts (delete TS_KEY (delete TS_KEY_PREFIXED row)) = None ∧
  read_rows sample_int sample_float sample_dataset
    (DictReader sample_records ++ row :: DictReader duplicate_records)
  = read_rows sample_int sample_float sample_dataset
    (DictReader sample_records ++ DictReader duplicate_records).
Proof.
  intros row.
  apply (C10_empty_timestamp_skipped sample_int sample_float row sample_dataset).
  vm_compute. reflexivity.
Defined.

(** C2: a file whose header spells the timestamp column with the byte-order
    marker in front yields the empty dataset, whatever [int] and [float]
    accept: none of its rows resolves a timestamp.  The same rows under the
    plain header, or under the six-byte prefix written in the source, are
    all stored. *)
Theorem C2_bom_header_loses_every_row :
  (∀ py_int py_float, read_game_data py_int py_float bom_records = Ok ∅) ∧
  Forall (λ row, resolve_ts row = None) (DictReader bom_records) ∧
  read_game_data sample_int sample_float sample_records = Ok sample_dataset ∧
  read_game_data sample_int sample_float latin1_bom_records = Ok sample_dataset.
Proof.
  split; [|split; [|split]].
  - intros py_int py_float. apply bom_header_drops_rows; compute_done.
  - apply unknown_header_unresolved; compute_done.
  - vm_compute. reflexivity.
  - vm_compute. reflexivity.
Qed.

(** ** The statistics *)

Lemma Qltb_lt (x y : Q) : Qltb x y = true ↔ (x < y)%Q.
Proof.
  unfold Qltb. rewrite Qlt_alt. destruct (x ?= y)%Q; naive_solver.
Qed.

Lemma Qltb_ge (x y : Q) : Qltb x y = false ↔ (y <= x)%Q.
Proof.
  rewrite <- not_true_iff_false, Qltb_lt. split.
  - apply Qnot_lt_le.
  - apply Qle_not_lt.
Qed.

Section MinMax.

Context {K : Type}.
Variable op : K → K → bool.

(** The keys on which [op] is a strict order: all of them for the
    rationals, all but NaN for the doubles. *)
Variable ordered : K → Prop.
Hypothesis op_irrefl : ∀ a, op a a = false.
Hypothesis op_asym : ∀ a b, op a b = true → op b a = false.
Hypothesis op_trans :
  ∀ a b c, ordered c → op a b = true → op c b = false → op a c = true.

Lemma first_extreme_unique (l : list K) (i j : nat) (v w : K) :
  first_extreme op l i v → first_extreme op l j w → i = j ∧ v = w.
Proof.
  intros [Hi Hv] [Hj Hw].
  assert (i = j) as ->.
  { destruct (Nat.lt_trichotomy i j) as [Hlt|[->|Hlt]]; [|done|].
    - destruct (Hw _ _ Hi) as [_ Hs]. destruct (Hv _ _ Hj) as [Hn _].
      specialize (Hs Hlt). congruence.
    - destruct (Hv _ _ Hj) as [_ Hs]. destruct (Hw _ _ Hi) as [Hn _].
      specialize (Hs Hlt). congruence. }
  split; [done | congruence].
Qed.

Lemma first_extreme_snoc (pre : list K) (i : nat) (v x : K) :
  Forall ordered pre →
  first_extreme op pre i v →
  first_extreme op (pre ++ [x]) (if op x v then length pre else i)
    (if op x v then x else v).
Proof using All.
  intros Hord [Hi Hv]. destruct (op x v) eqn:Hop.
  - split.
    { by rewrite lookup_app_r, Nat.sub_diag. }
    intros k w Hk. apply lookup_snoc_Some in Hk as [[Hlt Hk]|[-> ->]].
    + destruct (Hv _ _ Hk) as [Hwv _].
      assert (ordered w) as Hw by (by eapply Forall_lookup_1).
      pose proof (op_trans _ _ _ Hw Hop Hwv) as Hxw. auto.
    + split; [apply op_irrefl | lia].
  - split.
    { apply lookup_app_l_Some, Hi. }
    intros k w Hk. apply lookup_snoc_Some in Hk as [[Hlt Hk]|[-> ->]].
    + by apply Hv.
    + split; [done|]. intros Hlt. apply lookup_lt_Some in Hi. lia.
Qed.

(** The loop of [min_max] over the values themselves. *)
Lemma min_max_from_values (l pre : list K) (i : nat) (v : K) :
  Forall ordered (pre ++ l) →
  first_extreme op pre i v →
  ∃ j w, min_max_from op Ok v v l = Ok w ∧ first_extreme op (pre ++ l) j w.
Proof using All.
  revert pre i v. induction l as [|x l IH]; intros pre i v Hord Hfirst; simpl.
  { exists i, v. by rewrite app_nil_r. }
  assert (Forall ordered pre) as Hpre by (by apply Forall_app in Hord as [? _]).
  pose proof (first_extreme_snoc _ _ _ x Hpre Hfirst) as Hnext.
  rewrite (cons_middle x pre l), (assoc_L (++)) in Hord |- *.
  destruct (op x v); eapply IH, Hnext; exact Hord.
Qed.

Lemma list_item_middle {A : Type} (pre : list A) (x : A) (l : list A) :
  list_item (pre ++ x :: l) (length pre) = Ok x.
Proof. unfold list_item. by rewrite list_lookup_middle. Qed.

(** The loop of [min_max] over the positions, with the lookup as key. *)
Lemma min_max_from_positions (l pre : list K) (i : nat) (v : K) :
  Forall ordered (pre ++ l) →
  first_extreme op pre i v →
  ∃ j w, min_max_from op (list_item (pre ++ l)) i v (seq (length pre) (length l))
         = Ok j ∧ first_extreme op (pre ++ l) j w.
Proof using All.
  revert pre i v. induction l as [|x l IH]; intros pre i v Hord Hfirst.
  { exists i, v. by rewrite app_nil_r. }
  assert (Forall ordered pre) as Hpre by (by apply Forall_app in Hord as [? _]).
  pose proof (first_extreme_snoc _ _ _ x Hpre Hfirst) as Hnext.
  cbn [length seq min_max_from]. rewrite list_item_middle, bind_Ok.
  specialize (IH (pre ++ [x])).
  rewrite length_app, Nat.add_1_r, <- (assoc_L (++)) in IH. simpl in IH.
  destruct (op x v); eapply IH, Hnext; exact Hord.
Qed.

Lemma first_extreme_singleton (x : K) : first_extreme op [x] 0 x.
Proof using op_irrefl.
  split; [done|]. intros [|k] w Hk; simplify_eq/=.
  split; [apply op_irrefl | lia].
Qed.

(** On a non-empty list of ordered keys, [min_max] over the values and
    [min_max] over the positions agree: they return the value and the
    position of the first extreme. *)
Lemma min_max_first_extreme (l : list K) :
  Forall ordered l →
  l ≠ [] →
  ∃ i v, min_max op Ok l = Ok v ∧
         min_max op (list_item l) (py_range (length l)) = Ok i ∧
         first_extreme op l i v.
Proof using All.
  destruct l as [|x l]; [done|]. intros Hord _.
  destruct (min_max_from_values l [x] 0 x Hord (first_extreme_singleton x))
    as (j & w & Hval & Hj).
  destruct (min_max_from_positions l [x] 0 x Hord (first_extreme_singleton x))
    as (j' & w' & Hpos & Hj').
  destruct (first_extreme_unique _ _ _ _ _ Hj Hj') as [<- <-].
  exists j, w. simpl. auto.
Qed.

End MinMax.

Lemma Qltb_irrefl (a : Q) : Qltb a a = false.
Proof. apply Qltb_ge, Qle_refl. Qed.

Lemma Qltb_asym (a b : Q) : Qltb a b = true → Qltb b a = false.
Proof. rewrite Qltb_lt, Qltb_ge. apply Qlt_le_weak. Qed.

Lemma Qltb_trans (a b c : Q) : Qltb a b = true → Qltb c b = false → Qltb a c = true.
Proof. rewrite !Qltb_lt, Qltb_ge. apply Qlt_le_trans. Qed.

Lemma Qgtb_trans (a b c : Q) : Qgtb a b = true → Qgtb c b = false → Qgtb a c = true.
Proof. unfold Qgtb. rewrite !Qltb_lt, Qltb_ge. intros ??. by eapply Qle_lt_trans. Qed.

Lemma py_sum_foldr (l : list Q) (a : Q) :
  (foldl Qplus a l == a + foldr Qplus 0 l)%Q.
Proof.
  revert a. induction l as [|x l IH]; intros a; simpl.
  - by rewrite Qplus_0_r.
  - rewrite IH. symmetry. apply Qplus_assoc.
Qed.

Lemma truediv_pos (x : Q) (n : nat) :
  n ≠ 0 → truediv x n = Ok (x / inject_Z (Z.of_nat n))%Q.
Proof. by destruct n. Qed.

(** [max(a, b, c)] is the greatest of the three. *)
Lemma py_max_three (a b c : Q) : py_max [a; b; c] = Ok (Qmax (Qmax a b) c).
Proof.
  unfold py_max, min_max, Qgtb, Qltb. simpl.
  unfold Qmax, GenericMinMax.gmax.
  destruct (a ?= b)%Q; simpl;
    match goal with |- context [(?x ?= c)%Q] => destruct (x ?= c)%Q end;
    reflexivity.
Qed.

(** What [compute_series_stats] returns on a non-empty series. *)
Lemma compute_series_stats_ok (series : list Q) :
  series ≠ [] →
  ∃ smin smax min_idx max_idx,
    compute_series_stats series
    = Ok (smin, smax,
          (py_sum series / inject_Z (Z.of_nat (length series)))%Q,
          Qmax (Qmax (Qabs smin) (Qabs smax)) EPSILON,
          min_idx, max_idx) ∧
    first_extreme Qltb series min_idx smin ∧
    first_extreme Qgtb series max_idx smax.
Proof.
  intros Hne.
  assert (Forall (λ _ : Q, True) series) as Hord by (by apply Forall_true).
  destruct (min_max_first_extreme Qltb (λ _, True) Qltb_irrefl Qltb_asym
              (λ a b c _, Qltb_trans a b c) series Hord Hne)
    as (i & smin & Hmin & Hmin_idx & Hfirst_min).
  destruct (min_max_first_extreme Qgtb (λ _, True) Qltb_irrefl
              (λ a b, Qltb_asym b a) (λ a b c _, Qgtb_trans a b c) series Hord Hne)
    as (j & smax & Hmax & Hmax_idx & Hfirst_max).
  exists smin, smax, i, j. split; [|done].
  change (py_min series = Ok smin) in Hmin.
  change (py_max series = Ok smax) in Hmax.
  change (py_min_key (list_item series) (py_range (length series)) = Ok i)
    in Hmin_idx.
  change (py_max_key (list_item series) (py_range (length series)) = Ok j)
    in Hmax_idx.
  unfold compute_series_stats.
  rewrite Hmin, bind_Ok, Hmax, bind_Ok, truediv_pos, bind_Ok.
  - by rewrite py_max_three, bind_Ok, Hmin_idx, bind_Ok, Hmax_idx, bind_Ok.
  - by destruct series.
Qed.

Example compute_series_stats_ties :
  compute_series_stats [3; 1; 2 # 2; 7; 14 # 2]%Q
  = Ok (1%Q, 7%Q, (76 # 20)%Q, 7%Q, 1, 3).
Proof. vm_compute. reflexivity. Qed.

Example compute_series_stats_all_zero :
  compute_series_stats [0; 0 # 3]%Q = Ok (0%Q, 0%Q, (0 # 6)%Q, EPSILON, 0, 0).
Proof. vm_compute. reflexivity. Qed.

(** ** The chart *)

Lemma annotate_series_stats_ok (ax : axes) (indices : list nat) (series : list Q)
    (color label_prefix : string) :
  series ≠ [] → length indices = length series →
  ∃ smin smax avg span min_idx max_idx x_min x_max,
    compute_series_stats series = Ok (smin, smax, avg, span, min_idx, max_idx) ∧
    indices !! min_idx = Some x_min ∧
    indices !! max_idx = Some x_max ∧
    annotate_series_stats ax indices series color label_prefix
    = Ok {| ylabel := ylabel ax;
            ylim := Some ((- span)%Q, span);
            artists := artists ax ++
              [Marker x_min smin color ("Min " +:+ label_prefix +:+ ": " +:+ format_2f smin);
               Marker x_max smax color ("Max " +:+ label_prefix +:+ ": " +:+ format_2f smax);
               HLine avg color ("Avg " +:+ label_prefix +:+ ": " +:+ format_2f avg)] |}.
Proof.
  intros Hne Hlen.
  destruct (compute_series_stats_ok series Hne)
    as (smin & smax & i & j & Hrun & [Hi _] & [Hj _]).
  destruct (lookup_lt_is_Some_2 indices i) as [x_min Hx_min].
  { rewrite Hlen. by eapply lookup_lt_Some. }
  destruct (lookup_lt_is_Some_2 indices j) as [x_max Hx_max].
  { rewrite Hlen. by eapply lookup_lt_Some. }
  eexists smin, smax, _, _, i, j, x_min, x_max.
  split; [exact Hrun|]. split; [done|]. split; [done|].
  unfold annotate_series_stats, list_item. rewrite Hrun, bind_Ok.
  rewrite Hx_min, bind_Ok, Hx_max, bind_Ok.
  unfold add_artist, set_ylim. simpl. by rewrite <- !(assoc_L (++)).
Qed.

(** C7: [compute_series_stats] raises on the empty series, and
    [generate_chart] never meets that exception: given series as long as
    the positions, it returns a figure; an axis whose series is empty
    carries the line alone, with no limits, no markers and no average line,
    and an axis whose series is not empty is the annotated one. *)
Theorem C7_empty_series_guarded (game_indices : list nat)
    (kd_series skill_series : list Q) (timestamps_sorted : list string) :
  length game_indices = length kd_series →
  length game_indices = length skill_series →
  compute_series_stats [] = Raise ValueError ∧
  ∃ fig,
    generate_chart game_indices kd_series skill_series timestamps_sorted = Ok fig ∧
    (kd_series = [] →
       ylim (ax1 fig) = None ∧
       artists (ax1 fig) = [Line game_indices [] KD_COLOR KD_LABEL]) ∧
    (skill_series = [] →
       ylim (ax2 fig) = None ∧
       artists (ax2 fig) = [Line game_indices [] SKILL_COLOR SKILL_LABEL]) ∧
    (kd_series ≠ [] →
       annotate_series_stats
         (add_artist (new_axes KD_LABEL) (Line game_indices kd_series KD_COLOR KD_LABEL))
         game_indices kd_series KD_COLOR KD_LABEL = Ok (ax1 fig)) ∧
    (skill_series ≠ [] →
       annotate_series_stats
         (add_artist (new_axes SKILL_LABEL)
            (Line game_indices skill_series SKILL_COLOR SKILL_LABEL))
         game_indices skill_series SKILL_COLOR SKILL_LABEL = Ok (ax2 fig)).
Proof.
  intros Hkd Hskill. split; [reflexivity|].
  unfold generate_chart, plot_line.
  rewrite !decide_True by done. rewrite !bind_Ok.
  set (a1 := add_artist (new_axes KD_LABEL) _).
  set (a2 := add_artist (new_axes SKILL_LABEL) _).
  assert (∃ a1', match kd_series with
                 | [] => Ok a1
                 | _ :: _ => annotate_series_stats a1 game_indices kd_series
                               KD_COLOR KD_LABEL
                 end = Ok a1') as [a1' H1].
  { destruct kd_series as [|x l] eqn:E; [by eexists|].
    destruct (annotate_series_stats_ok a1 game_indices (x :: l) KD_COLOR KD_LABEL)
      as (?&?&?&?&?&?&?&?&_&_&_&->); by eauto. }
  assert (∃ a2', match skill_series with
                 | [] => Ok a2
                 | _ :: _ => annotate_series_stats a2 game_indices skill_series
                               SKILL_COLOR SKILL_LABEL
                 end = Ok a2') as [a2' H2].
  { destruct skill_series as [|x l] eqn:E; [by eexists|].
    destruct (annotate_series_stats_ok a2 game_indices (x :: l) SKILL_COLOR SKILL_LABEL)
      as (?&?&?&?&?&?&?&?&_&_&_&->); by eauto. }
  rewrite H1, bind_Ok, H2, bind_Ok. eexists. split; [reflexivity|]. simpl.
  split; [|split; [|split]].
  - intros ->. by injection H1 as <-.
  - intros ->. by injection H2 as <-.
  - intros Hne. by destruct kd_series.
  - intros Hne. by destruct skill_series.
Qed.

Lemma C7_empty_series_guarded_witness :
  compute_series_stats [] = Raise ValueError ∧
  ∃ fig,
    generate_chart [] [] [] [] = Ok fig ∧
    (@nil Q = [] →
       ylim (ax1 fig) = None ∧
       artists (ax1 fig) = [Line [] [] KD_COLOR KD_LABEL]) ∧
    (@nil Q = [] →
       ylim (ax2 fig) = None ∧
       artists (ax2 fig) = [Line [] [] SKILL_COLOR SKILL_LABEL]) ∧
    (@nil Q ≠ [] →
       annotate_series_stats
         (add_artist (new_axes KD_LABEL) (Line [] [] KD_COLOR KD_LABEL))
         [] [] KD_COLOR KD_LABEL = Ok (ax1 fig)) ∧
    (@nil Q ≠ [] →
       annotate_series_stats
         (add_artist (new_axes SKILL_LABEL) (Line [] [] SKILL_COLOR SKILL_LABEL))
         [] [] SKILL_COLOR SKILL_LABEL = Ok (ax2 fig)).
Proof.
  apply (C7_empty_series_guarded [] [] [] []); reflexivity.
Defined.

(** ** The series *)

Lemma comprehension_Forall2 {A B : Type} (f : A → result B) (l : list A)
    (ys : list B) :
  comprehension f l = Ok ys ↔ Forall2 (λ x y, f x = Ok y) l ys.
Proof.
  revert ys. induction l as [|x l IH]; intros ys; simpl.
  - split.
    + intros [= <-]. constructor.
    + by intros ->%Forall2_nil_inv_l.
  - split.
    + intros (y & Hy & Hrest)%bind_inv.
      apply bind_inv in Hrest as (ys' & Hys' & [= <-]).
      constructor; [done | by apply IH].
    + intros (y & ys' & Hy & Hys' & ->)%Forall2_cons_inv_l.
      apply IH in Hys'. by rewrite Hy, bind_Ok, Hys', bind_Ok.
Qed.

(** A comprehension that reads a field of the record under each key. *)
Lemma comprehension_field {B : Type} (f : game_record → B) (d : dataset)
    (keys : list string) :
  Forall (λ ts, is_Some (d !! ts)) keys →
  ∃ ys, comprehension (λ ts, r ← dict_item d ts; Ok (f r)) keys = Ok ys ∧
        Forall2 (λ ts y, ∃ r, d !! ts = Some r ∧ y = f r) keys ys.
Proof.
  induction 1 as [|ts keys [r Hr] _ (ys & Hys & Hall)].
  - exists []. split; [done | constructor].
  - exists (f r :: ys). split.
    + assert (dict_item d ts = Ok r) as Hitem by (unfold dict_item; by rewrite Hr).
      cbn [comprehension]. by rewrite Hitem, !bind_Ok, Hys.
    + constructor; eauto.
Qed.

Lemma sorted_keys_present {V : Type} (d : gmap string V) :
  Forall (λ ts, is_Some (d !! ts)) (sorted_keys d).
Proof. apply Forall_forall. intros ts. by rewrite sorted_keys_elem. Qed.

Lemma sorted_keys_sorted {V : Type} (d : gmap string V) :
  StronglySorted String.le (sorted_keys d).
Proof. apply (StronglySorted_merge_sort String.le). Qed.

(** A duplicate-free list in ascending order is in strictly ascending
    order. *)
Lemma StronglySorted_strict (l : list string) :
  StronglySorted String.le l → NoDup l → StronglySorted (strict String.le) l.
Proof.
  induction 1 as [|x l Hsorted IH Hall]; intros Hnodup; constructor.
  - apply IH. by eapply NoDup_cons_1_2.
  - apply NoDup_cons in Hnodup as [Hx _].
    rewrite Forall_forall in *. intros y Hy. split; [by apply Hall|].
    intros Hyx. apply Hx. by rewrite (anti_symm String.le x y (Hall y Hy) Hyx).
Qed.

(** The extraction never raises: every sorted key is a key of the dataset. *)
Lemma extract_series_ok (d : dataset) :
  ∃ kd_series skill_series,
    extract_series d
    = Ok (sorted_keys d, kd_series, skill_series, seq 1 (size d)) ∧
    Forall2 (λ ts x, ∃ r, d !! ts = Some r ∧ x = KD r) (sorted_keys d) kd_series ∧
    Forall2 (λ ts x, ∃ r, d !! ts = Some r ∧ x = Skill r) (sorted_keys d) skill_series.
Proof.
  destruct (comprehension_field KD d _ (sorted_keys_present d)) as (kd & Hkd & Hkd2).
  destruct (comprehension_field Skill d _ (sorted_keys_present d)) as (sk & Hsk & Hsk2).
  exists kd, sk. split; [|done].
  unfold extract_series. by rewrite Hkd, bind_Ok, Hsk, bind_Ok, sorted_keys_length.
Qed.


(** C8: the extraction is total.  It returns the keys of the dataset in
    ascending, and indeed strictly ascending, order; the ratio and the skill
    at each position are those of the record under the key at that position;
    the positions are 1..N; and on the empty dataset every sequence is
    empty. *)
Theorem C8_series_aligned (d : dataset) :
  ∃ keys kd_series skill_series game_indices,
    extract_series d = Ok (keys, kd_series, skill_series, game_indices) ∧
    keys ≡ₚ elements (dom d) ∧
    StronglySorted String.le keys ∧
    StronglySorted (strict String.le) keys ∧
    length kd_series = length keys ∧
    length skill_series = length keys ∧
    (∀ i ts, keys !! i = Some ts →
       ∃ r, d !! ts = Some r ∧
            kd_series !! i = Some (KD r) ∧ skill_series !! i = Some (Skill r)) ∧
    game_indices = seq 1 (size d) ∧
    extract_series (∅ : dataset) = Ok ([], [], [], []).
Proof.
  destruct (extract_series_ok d) as (kd & sk & Hrun & Hkd2 & Hsk2).
  exists (sorted_keys d), kd, sk, (seq 1 (size d)).
  split; [|split; [|split; [|split; [|split; [|split; [|split; [|split]]]]]]].
  - exact Hrun.
  - apply sorted_keys_perm.
  - apply sorted_keys_sorted.
  - apply StronglySorted_strict; [apply sorted_keys_sorted | apply sorted_keys_NoDup].
  - symmetry. by eapply Forall2_length.
  - symmetry. by eapply Forall2_length.
  - intros i ts Hi.
    destruct (Forall2_lookup_l _ _ _ _ _ Hkd2 Hi) as (x & Hx & r & Hr & ->).
    destruct (Forall2_lookup_l _ _ _ _ _ Hsk2 Hi) as (y & Hy & r' & Hr' & ->).
    exists r. by simplify_eq.
  - done.
  - reflexivity.
Qed.

Example extract_series_sample :
  extract_series sample_dataset
  = Ok (["T1"; "T2"; "T3"], [10 # 2; 0; 5 # 5]%Q, [3 # 2; 2; 3 # 4]%Q, [1; 2; 3]).
Proof. vm_compute. reflexivity. Qed.

(** ** The table *)

Lemma slice_page {A : Type} (l : list A) (page : nat) :
  slice l (page * ROWS_PER_PAGE) (Nat.min ((page + 1) * ROWS_PER_PAGE) (length l))
  = take ROWS_PER_PAGE (drop (page * ROWS_PER_PAGE) l).
Proof.
  unfold slice. generalize ROWS_PER_PAGE. intros n.
  destruct (decide ((page + 1) * n ≤ length l)) as [Hle|Hgt].
  - rewrite Nat.min_l by lia. f_equal. lia.
  - rewrite Nat.min_r by lia.
    rewrite !take_ge; [done | rewrite length_drop; lia | rewrite length_drop; lia].
Qed.

(** The row of a timestamp whose record is [r]. *)
Lemma table_row_present (d : dataset) (ts : string) (r : game_record) :
  d !! ts = Some r →
  table_row d ts
  = Ok [ts; format_2f (Skill r); pretty (Kills r); pretty (Deaths r);
        format_2f (KD r)].
Proof. intros Hr. unfold table_row, dict_item. by rewrite Hr. Qed.

Lemma table_rows_ok (d : dataset) (keys : list string) :
  Forall (λ ts, is_Some (d !! ts)) keys →
  ∃ rows, comprehension (table_row d) keys = Ok rows.
Proof.
  induction 1 as [|ts keys [r Hr] _ (rows & Hrows)]; [by eexists|].
  eexists. cbn [comprehension].
  by rewrite (table_row_present _ _ _ Hr), bind_Ok, Hrows, bind_Ok.
Qed.

Lemma table_page_ok (d : dataset) (data_rows : list string)
    (total_pages page : nat) :
  Forall (λ ts, is_Some (d !! ts)) data_rows →
  ∃ rows,
    comprehension (table_row d)
      (take ROWS_PER_PAGE (drop (page * ROWS_PER_PAGE) data_rows)) = Ok rows ∧
    table_page d data_rows total_pages page
    = Ok {| table_title := "Game Data Table - Page " +:+ pretty (page + 1)
                             +:+ " of " +:+ pretty total_pages;
            cellText := TABLE_HEADERS :: rows |}.
Proof.
  intros Hall.
  destruct (table_rows_ok d (take ROWS_PER_PAGE (drop (page * ROWS_PER_PAGE) data_rows)))
    as [rows Hrows].
  { by apply Forall_take, Forall_drop. }
  exists rows. split; [done|].
  unfold table_page. by rewrite slice_page, Hrows, bind_Ok.
Qed.

(** The loop writes one document per page, each over the previous one: the
    log grows by every page, and the file ends up holding the last page
    alone. *)
Lemma save_table_pages_ok (d : dataset) (data_rows : list string)
    (total_pages : nat) (output_path : string) (pages : list nat) (w : world) :
  Forall (λ ts, is_Some (d !! ts)) data_rows →
  ∃ figs,
    Forall2 (λ page fig, table_page d data_rows total_pages page = Ok fig) pages figs ∧
    save_table_pages d data_rows total_pages pages output_path w
    = Ok {| files := match last figs with
                     | Some fig => <[output_path := [TablePage fig]]> (files w)
                     | None => files w
                     end;
            savefig_log := savefig_log w
                           ++ map (λ fig, (output_path, TablePage fig)) figs |}.
Proof.
  intros Hall. revert w. induction pages as [|page pages IH]; intros w.
  { exists []. split; [constructor|]. simpl. rewrite app_nil_r. by destruct w. }
  destruct (table_page_ok d data_rows total_pages page Hall) as (rows & _ & Hfig).
  revert Hfig. generalize (TABLE_HEADERS :: rows). intros cells.
  generalize ("Game Data Table - Page " +:+ pretty (page + 1)
                +:+ " of " +:+ pretty total_pages).
  intros title Hfig.
  destruct (IH (with_PdfPages output_path
                  [TablePage {| table_title := title; cellText := cells |}] w))
    as (figs & Hfigs & Hrun).
  eexists (_ :: figs). split; [constructor; [exact Hfig | exact Hfigs]|].
  cbn [save_table_pages]. rewrite Hfig, bind_Ok, Hrun. f_equal.
  unfold with_PdfPages. cbn [files savefig_log map].
  rewrite <- (assoc_L (++)). f_equal.
  rewrite last_cons. destruct (last figs); [apply insert_insert_eq | done].
Qed.

Lemma table_rows_spec (d : dataset) (keys : list string) (rows : list (list string)) :
  Forall (λ ts, is_Some (d !! ts)) keys →
  comprehension (table_row d) keys = Ok rows →
  Forall2 (λ ts row, ∃ r, d !! ts = Some r ∧
             row = [ts; format_2f (Skill r); pretty (Kills r); pretty (Deaths r);
                    format_2f (KD r)]) keys rows.
Proof.
  intros Hall Hrows. apply comprehension_Forall2 in Hrows.
  induction Hrows as [|ts row keys rows Hrow _ IH]; [constructor|].
  apply Forall_cons in Hall as [[r Hr] Hall].
  constructor; [|by apply IH].
  exists r. split; [done|]. rewrite (table_row_present _ _ _ Hr) in Hrow. congruence.
Qed.

Lemma page_count_ceiling (n : nat) :
  n ≤ ROWS_PER_PAGE * ((n + ROWS_PER_PAGE - 1) / ROWS_PER_PAGE) ∧
  ROWS_PER_PAGE * ((n + ROWS_PER_PAGE - 1) / ROWS_PER_PAGE) < n + ROWS_PER_PAGE.
Proof.
  unfold ROWS_PER_PAGE.
  pose proof (Nat.div_mod_eq (n + 40 - 1) 40) as Hdiv.
  pose proof (Nat.mod_upper_bound (n + 40 - 1) 40) as Hmod.
  lia.
Qed.

(** C9: [save_table_pdf] hands to the PDF backend one figure per block of
    40 sorted keys: as many figures as the ceiling of N/40; figure [i]
    (counted from 0) is titled with page [i + 1] of the total, its cells are
    the fixed header row followed by the rows of the [i]-th block of the
    keys in ascending order, at most 40 of them, exactly 40 before the last
    page, and N - 40 * (pages - 1) on the last page. *)
Theorem C9_table_pagination (d : dataset) (output_path : string) (w : world) :
  ∃ w' figs,
    save_table_pdf d output_path w = Ok w' ∧
    savefig_log w'
    = savefig_log w ++ map (λ fig, (output_path, TablePage fig)) figs ∧
    size d ≤ 40 * length figs ∧
    40 * length figs < size d + 40 ∧
    StronglySorted String.le (sorted_keys d) ∧
    ∀ i fig, figs !! i = Some fig →
      table_title fig
      = "Game Data Table - Page " +:+ pretty (i + 1)
          +:+ " of " +:+ pretty (length figs) ∧
      ∃ rows,
        cellText fig = ["Timestamp"; "Skill"; "Kills"; "Deaths"; "K/D Ratio"] :: rows ∧
        Forall2 (λ ts row, ∃ r, d !! ts = Some r ∧
                   row = [ts; format_2f (Skill r); pretty (Kills r);
                          pretty (Deaths r); format_2f (KD r)])
          (take 40 (drop (i * 40) (sorted_keys d))) rows ∧
        length rows ≤ 40 ∧
        (i + 1 < length figs → length rows = 40) ∧
        (i + 1 = length figs → length rows = size d - 40 * (length figs - 1)).
Proof.
  unfold save_table_pdf.
  set (keys := sorted_keys d).
  set (total := (length keys + ROWS_PER_PAGE - 1) / ROWS_PER_PAGE).
  pose proof (sorted_keys_present d) as Hall. fold keys in Hall.
  destruct (save_table_pages_ok d keys total output_path (py_range total) w Hall)
    as (figs & Hfigs & Hrun).
  assert (length figs = total) as Hlen.
  { apply Forall2_length in Hfigs. unfold py_range in Hfigs.
    by rewrite length_seq in Hfigs. }
  assert (length keys = size d) as Hkeys by apply sorted_keys_length.
  destruct (page_count_ceiling (length keys)) as [Hlo Hhi].
  fold total in Hlo, Hhi. unfold ROWS_PER_PAGE in Hlo, Hhi.
  eexists _, figs. split; [exact Hrun|]. cbn [savefig_log].
  split; [done|]. split; [lia|]. split; [lia|].
  split; [apply sorted_keys_sorted|].
  intros i fig Hi.
  assert (i < total) as Hi_lt by (rewrite <- Hlen; by eapply lookup_lt_Some).
  destruct (Forall2_lookup_r _ _ _ _ _ Hfigs Hi) as (page & Hpage & Hfig).
  unfold py_range in Hpage. apply lookup_seq in Hpage as [-> _]. simpl in Hfig.
  destruct (table_page_ok d keys total i Hall) as (rows & Hrows & Hfig').
  rewrite Hfig' in Hfig. injection Hfig as <-. cbn [table_title cellText].
  split; [by rewrite Hlen|].
  exists rows. split; [done|].
  pose proof (table_rows_spec d _ rows
                ltac:(by apply Forall_take, Forall_drop) Hrows) as Hspec.
  split; [exact Hspec|].
  apply Forall2_length in Hspec.
  rewrite length_take, length_drop in Hspec. unfold ROWS_PER_PAGE in Hspec.
  lia.
Qed.

(** Whenever there is something to write, the file that [save_table_pdf]
    leaves behind holds one page, the last one. *)
Lemma save_table_pdf_persists_last_page (d : dataset) (output_path : string)
    (w : world) :
  size d ≠ 0 →
  ∃ w' fig,
    save_table_pdf d output_path w = Ok w' ∧
    files w' !! output_path = Some [TablePage fig] ∧
    table_title fig
    = "Game Data Table - Page " +:+ pretty ((size d + 39) / 40)
        +:+ " of " +:+ pretty ((size d + 39) / 40).
Proof.
  intros Hsize. unfold save_table_pdf.
  pose proof (sorted_keys_length d) as Hkeys.
  set (keys := sorted_keys d) in *.
  replace (length keys + ROWS_PER_PAGE - 1) with (size d + 39)
    by (unfold ROWS_PER_PAGE; lia).
  change ROWS_PER_PAGE with 40 at 1.
  set (total := (size d + 39) / 40).
  pose proof (sorted_keys_present d) as Hall. fold keys in Hall.
  destruct (save_table_pages_ok d keys total output_path (py_range total) w Hall)
    as (figs & Hfigs & Hrun).
  assert (length figs = total) as Hlen.
  { apply Forall2_length in Hfigs. unfold py_range in Hfigs.
    by rewrite length_seq in Hfigs. }
  assert (0 < total) as Hpos.
  { pose proof (page_count_ceiling (size d)) as [Hlo _].
    replace ((size d + ROWS_PER_PAGE - 1) / ROWS_PER_PAGE) with total in Hlo
      by (unfold total, ROWS_PER_PAGE; f_equal; lia).
    unfold ROWS_PER_PAGE in Hlo. lia. }
  destruct (lookup_lt_is_Some_2 figs (total - 1)) as [fig Hfig]; [lia|].
  assert (last figs = Some fig) as Hlast.
  { rewrite last_lookup, Hlen. by replace (pred total) with (total - 1) by lia. }
  rewrite Hlast in Hrun. eexists _, fig. split; [exact Hrun|]. cbn [files].
  split; [apply lookup_insert_eq|].
  destruct (Forall2_lookup_r _ _ _ _ _ Hfigs Hfig) as (page & Hpage & Hrender).
  unfold py_range in Hpage. apply lookup_seq in Hpage as [-> _]. simpl in Hrender.
  destruct (table_page_ok d keys total (total - 1) Hall) as (rows & _ & Hfig').
  rewrite Hfig' in Hrender. injection Hrender as <-. cbn [table_title].
  by replace (total - 1 + 1) with total by lia.
Qed.

(** C3: on the forty-one games, parsed from their CSV records, the table
    has two pages and both are handed to the PDF backend, but the document
    left at the output path holds a single page, the second. *)
Theorem C3_only_last_page_persisted :
  read_game_data sample_int sample_float records41 = Ok dataset41 ∧
  size dataset41 = 41 ∧
  save_table_pdf dataset41 "output/game_statistics_data.pdf" empty_world
  = Ok {| files := {[ "output/game_statistics_data.pdf" := [TablePage table41_page2] ]};
          savefig_log := [("output/game_statistics_data.pdf", TablePage table41_page1);
                          ("output/game_statistics_data.pdf", TablePage table41_page2)] |}.
Proof.
  split; [|split].
  - vm_compute. reflexivity.
  - vm_compute. reflexivity.
  - vm_compute. reflexivity.
Qed.

(** Cutting a list into consecutive blocks of [n] and gluing them back
    gives the list, once the blocks reach its end. *)
Lemma blocks_concat {A : Type} (n k : nat) (l : list A) :
  length l ≤ k * n →
  concat (map (λ i, take n (drop (i * n) l)) (seq 0 k)) = l.
Proof.
  revert l. induction k as [|k IH]; intros l Hlen.
  { destruct l; [done | simpl in Hlen; lia]. }
  cbn [seq map concat]. rewrite <- seq_shift, map_map.
  transitivity (take n l ++ drop n l); [|apply take_drop]. f_equal.
  transitivity (concat (map (λ i, take n (drop (i * n) (drop n l))) (seq 0 k))).
  - f_equal. apply map_ext. intros i. rewrite drop_drop. by do 2 f_equal.
  - apply IH. rewrite length_drop. lia.
Qed.

(** The data rows of all the pages of the table, counted together, are as
    many as the records of the dataset. *)
Lemma save_table_pdf_rows (d : dataset) (output_path : string) (w : world) :
  ∃ w' figs,
    save_table_pdf d output_path w = Ok w' ∧
    savefig_log w'
    = savefig_log w ++ map (λ fig, (output_path, TablePage fig)) figs ∧
    length (concat (map (λ fig, tail (cellText fig)) figs)) = size d.
Proof.
  unfold save_table_pdf.
  set (keys := sorted_keys d).
  set (total := (length keys + ROWS_PER_PAGE - 1) / ROWS_PER_PAGE).
  pose proof (sorted_keys_present d) as Hall. fold keys in Hall.
  destruct (save_table_pages_ok d keys total output_path (py_range total) w Hall)
    as (figs & Hfigs & Hrun).
  eexists _, figs. split; [exact Hrun|]. split; [done|].
  rewrite <- (sorted_keys_length d). fold keys.
  rewrite <- (blocks_concat ROWS_PER_PAGE total keys) at 1.
  2:{ destruct (page_count_ceiling (length keys)) as [Hlo _]. fold total in Hlo. lia. }
  clear Hrun. unfold py_range in Hfigs. revert Hfigs.
  generalize (seq 0 total). intros pages Hfigs.
  induction Hfigs as [|page fig pages figs Hfig _ IH]; [done|].
  cbn [map concat]. rewrite !length_app, IH. f_equal.
  destruct (table_page_ok d keys total page Hall) as (rows & Hrows & Hfig').
  rewrite Hfig' in Hfig. injection Hfig as <-. cbn [cellText tail].
  apply comprehension_Forall2, Forall2_length in Hrows. done.
Qed.

(** ** Rows that share a timestamp *)

Section Duplicates.

Variable py_int : string → option Z.
Variable py_float : string → option Q.

#[local] Abbreviation read_rows := (read_rows py_int py_float).
#[local] Abbreviation parse_record := (parse_record py_int py_float).
#[local] Abbreviation valid_row := (valid_row py_int py_float).

(** C4: when two valid rows carry the timestamp [T] and every other row is
    valid with a timestamp of its own, the parse succeeds, the record under
    [T] is the one of the later row, and the dataset holds one record less
    than there are rows; so do the series and positions of the chart, and
    the data rows of the table. *)
Theorem C4_last_write_wins (rows1 rows2 rows3 : list csv_row)
    (row_a row_b : csv_row) (T : string) (r_b : game_record)
    (output_path : string) (w : world) :
  resolve_ts row_a = Some T →
  resolve_ts row_b = Some T →
  parse_record row_b = Ok r_b →
  Forall valid_row (rows1 ++ row_a :: rows2 ++ row_b :: rows3) →
  NoDup (T :: omap resolve_ts (rows1 ++ rows2 ++ rows3)) →
  ∃ d keys kd_series skill_series w' figs,
    read_rows ∅ (rows1 ++ row_a :: rows2 ++ row_b :: rows3) = Ok d ∧
    d !! T = Some r_b ∧
    size d = length (rows1 ++ row_a :: rows2 ++ row_b :: rows3) - 1 ∧
    extract_series d = Ok (keys, kd_series, skill_series, seq 1 (size d)) ∧
    length keys = size d ∧
    length kd_series = size d ∧
    length skill_series = size d ∧
    save_table_pdf d output_path w = Ok w' ∧
    savefig_log w'
    = savefig_log w ++ map (λ fig, (output_path, TablePage fig)) figs ∧
    length (concat (map (λ fig, tail (cellText fig)) figs)) = size d.
Proof.
  intros Ha Hb Hparse Hvalid Hnodup.
  destruct (read_rows_valid py_int py_float _ ∅ Hvalid) as (d & Hrun & Hdom).
  destruct (extract_series_ok d) as (kd & sk & Hseries & Hkd & Hsk).
  destruct (save_table_pdf_rows d output_path w) as (w' & figs & Htable & Hlog & Hrows).
  exists d, (sorted_keys d), kd, sk, w', figs.
  apply Forall2_length in Hkd, Hsk. rewrite sorted_keys_length in Hkd, Hsk.
  split; [done|].
  assert (T ≠ "") as HT.
  { apply Forall_app in Hvalid as [_ Hvalid].
    apply Forall_cons in Hvalid as [[Htr _] _].
    apply truthy_Some in Htr as (ts & Hts & Hne). congruence. }
  assert (size d = length (rows1 ++ row_a :: rows2 ++ row_b :: rows3) - 1) as Hsize.
  { rewrite <- size_dom, Hdom, dom_empty_L, (left_id_L ∅ (∪)).
    rewrite <- (valid_rows_timestamps _ _ _ Hvalid).
    rewrite !omap_app in Hnodup.
    rewrite omap_app, (omap_cons_Some _ _ _ _ Ha), omap_app,
      (omap_cons_Some _ _ _ _ Hb).
    set (t1 := omap resolve_ts rows1) in *.
    set (t2 := omap resolve_ts rows2) in *.
    set (t3 := omap resolve_ts rows3) in *.
    assert (list_to_set (t1 ++ T :: t2 ++ T :: t3) =@{gset string}
            list_to_set (T :: t1 ++ t2 ++ t3)) as -> by set_solver.
    rewrite size_list_to_set by done.
    rewrite !length_app. simpl. rewrite !length_app. simpl. lia. }
  split; [|by rewrite sorted_keys_length].
  rewrite read_rows_app in Hrun. apply bind_inv in Hrun as (d0 & _ & Hrun).
  rewrite app_comm_cons, read_rows_app in Hrun.
  apply bind_inv in Hrun as (d1 & _ & Hrun3).
  simpl in Hrun3. rewrite (read_row_store _ _ _ _ _ Hb HT), Hparse in Hrun3.
  simpl in Hrun3.
  rewrite (read_rows_other _ _ _ _ _ T Hrun3); [apply lookup_insert_eq|].
  apply Forall_forall. intros row Hin Hrow.
  apply NoDup_cons in Hnodup as [Hnotin _]. apply Hnotin.
  rewrite !omap_app, !elem_of_app. right. right.
  apply list_elem_of_omap. eauto.
Qed.

End Duplicates.

Lemma C4_last_write_wins_witness :
  ∃ d keys kd_series skill_series w' figs,
    read_rows sample_int sample_float ∅ (DictReader duplicate_records) = Ok d ∧
    d !! "T1" = Some {| Skill := 3 # 4; Kills := 5; Deaths := 5; KD := 5 / 5 |} ∧
    size d = 2 ∧
    extract_series d = Ok (keys, kd_series, skill_series, seq 1 (size d)) ∧
    length keys = size d ∧
    length kd_series = size d ∧
    length skill_series = size d ∧
    save_table_pdf d "table.pdf" empty_world = Ok w' ∧
    savefig_log w' = [] ++ map (λ fig, ("table.pdf", TablePage fig)) figs ∧
    length (concat (map (λ fig, tail (cellText fig)) figs)) = size d.
Proof.
  set (row_of := λ record, dict_of_items (zip_fields sample_header record)).
  apply (C4_last_write_wins sample_int sample_float
           [] [row_of ["T2"; "2.00"; "0"; "0"]] []
           (row_of ["T1"; "1.50"; "10"; "2"]) (row_of ["T1"; "0.75"; "5"; "5"])
           "T1" {| Skill := 3 # 4; Kills := 5; Deaths := 5; KD := 5 / 5 |}
           "table.pdf" empty_world).
  - vm_compute. reflexivity.
  - vm_compute. reflexivity.
  - vm_compute. reflexivity.
  - repeat constructor; vm_compute; reflexivity.
  - compute_done.
Defined.

(** The round-trip scenario: three rows, one page. *)
Example save_table_pdf_sample :
  save_table_pdf sample_dataset "table.pdf" empty_world
  = Ok (with_PdfPages "table.pdf"
          [TablePage
             {| table_title := "Game Data Table - Page 1 of 1";
                cellText := [ TABLE_HEADERS;
                              ["T1"; "1.50"; "10"; "2"; "5.00"];
                              ["T2"; "2.00"; "0"; "0"; "0.00"];
                              ["T3"; "0.75"; "5"; "5"; "1.00"] ] |}]
          empty_world).
Proof. vm_compute. reflexivity. Qed.

(** * Further properties of the code *)

(** ** The parser, beyond valid input *)

Lemma read_row_same_columns (py_int : string → option Z)
    (py_float : string → option Q) (d : dataset) (row1 row2 : csv_row) :
  same_columns row1 row2 →
  read_row py_int py_float d row1 = read_row py_int py_float d row2.
Proof.
  unfold same_columns. rewrite !Forall_cons.
  intros (H1 & H2 & H3 & H4 & H5 & _).
  unfold read_row, resolve_ts, row_get, parse_record, dict_item.
  by rewrite H1, H2, H3, H4, H5.
Qed.

Section ParserMore.

Variable py_int : string → option Z.
Variable py_float : string → option Q.

#[local] Abbreviation read_row := (read_row py_int py_float).
#[local] Abbreviation read_rows := (read_rows py_int py_float).
#[local] Abbreviation parse_record := (parse_record py_int py_float).
#[local] Abbreviation valid_row := (valid_row py_int py_float).

(** A row that does not stop the loop: it is skipped or it is stored. *)
Lemma read_rows_harmless (rows : list csv_row) (d : dataset) :
  Forall (λ row, truthy (resolve_ts row) = false ∨ valid_row row) rows →
  is_ok (read_rows d rows).
Proof.
  revert d. induction rows as [|row rows IH]; intros d Hall; simpl; [done|].
  apply Forall_cons in Hall as [Hrow Hall].
  destruct Hrow as [Hskip|[Htr Hok]].
  - rewrite read_row_skip by done. apply IH, Hall.
  - apply truthy_Some in Htr as (ts & Hts & Hne).
    rewrite (read_row_store _ _ _ _ _ Hts Hne).
    destruct (parse_record row) as [r|e]; [|done]. apply IH, Hall.
Qed.

(** X2: the first row that has a timestamp and a field that cannot be read
    ends the parse with the exception of that field; the rows stored before
    it and the rows after it make no difference. *)
Theorem read_rows_first_error (before after : list csv_row) (row : csv_row)
    (d : dataset) (e : exn) :
  Forall (λ row, truthy (resolve_ts row) = false ∨ valid_row row) before →
  truthy (resolve_ts row) = true →
  parse_record row = Raise e →
  read_rows d (before ++ row :: after) = Raise e.
Proof.
  intros Hbefore Htr Hparse. rewrite read_rows_app.
  pose proof (read_rows_harmless before d Hbefore) as Hok.
  destruct (read_rows d before) as [d'|]; [|done].
  rewrite bind_Ok. simpl.
  apply truthy_Some in Htr as (ts & Hts & Hne).
  by rewrite (read_row_store _ _ _ _ _ Hts Hne), Hparse.
Qed.

(** X3: in a parse that succeeds, the record under a timestamp is the one
    of the last row that carries it, however many rows carried it before. *)
Theorem read_rows_last_row (before after : list csv_row) (row : csv_row)
    (d0 d : dataset) (ts : string) :
  read_rows d0 (before ++ row :: after) = Ok d →
  resolve_ts row = Some ts → ts ≠ "" →
  Forall (λ row', resolve_ts row' ≠ Some ts) after →
  ∃ r, parse_record row = Ok r ∧ d !! ts = Some r.
Proof.
  intros Hrun Hts Hne Hafter.
  rewrite read_rows_app in Hrun. apply bind_inv in Hrun as (d1 & _ & Hrun).
  simpl in Hrun. rewrite (read_row_store _ _ _ _ _ Hts Hne) in Hrun.
  apply bind_inv in Hrun as (d2 & Hrow & Hrun).
  apply bind_inv in Hrow as (r & Hparse & [= <-]).
  exists r. split; [done|].
  rewrite (read_rows_other _ _ _ _ _ ts Hrun Hafter). apply lookup_insert_eq.
Qed.

(** A timestamp that a row stores stays a key until the end. *)
Lemma read_rows_keeps_keys (rows : list csv_row) (d0 d : dataset) (ts : string) :
  read_rows d0 rows = Ok d → is_Some (d0 !! ts) → is_Some (d !! ts).
Proof.
  revert d0. induction rows as [|row rows IH]; intros d0 Hrun Hin; simpl in Hrun.
  { by injection Hrun as <-. }
  apply bind_inv in Hrun as (d1 & Hrow & Hrest).
  apply (IH _ Hrest).
  destruct (truthy (resolve_ts row)) eqn:Htr.
  - apply truthy_Some in Htr as (ts' & Hts & Hne).
    rewrite (read_row_store _ _ _ _ _ Hts Hne) in Hrow.
    apply bind_inv in Hrow as (r & _ & [= <-]).
    rewrite lookup_insert_is_Some. destruct (decide (ts' = ts)); auto.
  - rewrite read_row_skip in Hrow by done. by injection Hrow as <-.
Qed.

Lemma read_rows_stores (rows : list csv_row) (d0 d : dataset) (row : csv_row)
    (ts : string) :
  read_rows d0 rows = Ok d →
  row ∈ rows → resolve_ts row = Some ts → ts ≠ "" →
  is_Some (d !! ts).
Proof.
  intros Hrun Hin Hts Hne.
  apply list_elem_of_split in Hin as (before & after & ->).
  rewrite read_rows_app in Hrun. apply bind_inv in Hrun as (d1 & _ & Hrun).
  simpl in Hrun. rewrite (read_row_store _ _ _ _ _ Hts Hne) in Hrun.
  apply bind_inv in Hrun as (d2 & Hrow & Hrun).
  apply bind_inv in Hrow as (r & _ & [= <-]).
  apply (read_rows_keeps_keys _ _ _ _ Hrun). rewrite lookup_insert_eq. eauto.
Qed.

Lemma read_rows_size (rows : list csv_row) (d0 d : dataset) :
  read_rows d0 rows = Ok d → size d ≤ size d0 + length rows.
Proof.
  revert d0. induction rows as [|row rows IH]; intros d0 Hrun; simpl in Hrun.
  { injection Hrun as <-. lia. }
  apply bind_inv in Hrun as (d1 & Hrow & Hrest).
  apply IH in Hrest. simpl.
  assert (size d1 ≤ S (size d0)); [|lia].
  destruct (truthy (resolve_ts row)) eqn:Htr.
  - apply truthy_Some in Htr as (ts & Hts & Hne).
    rewrite (read_row_store _ _ _ _ _ Hts Hne) in Hrow.
    apply bind_inv in Hrow as (r & _ & [= <-]).
    rewrite map_size_insert. destruct (d0 !! ts); simpl; lia.
  - rewrite read_row_skip in Hrow by done. injection Hrow as <-. lia.
Qed.

(** X4: in a parse that succeeds, the keys of the dataset are exactly the
    timestamps, other than the empty string, that some row of the file
    resolves to; the empty string is never a key, and there are never more
    records than rows. *)
Theorem read_game_data_keys (records : list (list string)) (d : dataset) :
  read_game_data py_int py_float records = Ok d →
  (∀ ts, is_Some (d !! ts) ↔
         ts ≠ "" ∧ ∃ row, row ∈ DictReader records ∧ resolve_ts row = Some ts) ∧
  d !! "" = None ∧
  size d ≤ length (DictReader records).
Proof.
  intros Hrun. unfold read_game_data in Hrun.
  assert (∀ ts, is_Some (d !! ts) ↔
            ts ≠ "" ∧ ∃ row, row ∈ DictReader records ∧ resolve_ts row = Some ts)
    as Hkeys.
  { intros ts. split.
    - intros [r Hr].
      destruct (read_rows_provenance _ _ _ _ _ _ _ Hrun Hr)
        as [Hempty|(row & Hin & Hts & Hne & _)].
      + by rewrite lookup_empty in Hempty.
      + eauto.
    - intros (Hne & row & Hin & Hts). by eapply read_rows_stores. }
  split; [done|]. split.
  - apply eq_None_not_Some. rewrite Hkeys. by intros [? _].
  - apply read_rows_size in Hrun. by rewrite map_size_empty in Hrun.
Qed.

(** X5: the loop reads five columns and no other: rows that agree on the
    two timestamp spellings and on Kills, Deaths and Skill give the same
    result, whatever else they hold. *)
Theorem read_rows_same_columns (rows1 rows2 : list csv_row) (d : dataset) :
  Forall2 same_columns rows1 rows2 →
  read_rows d rows1 = read_rows d rows2.
Proof.
  intros Hall. revert d.
  induction Hall as [|row1 row2 rows1 rows2 Hrow _ IH]; intros d; [done|].
  simpl. rewrite (read_row_same_columns _ _ _ _ _ Hrow).
  destruct (read_row d row2); [apply IH | done].
Qed.

End ParserMore.

Lemma read_rows_first_error_witness :
  read_rows sample_int sample_float ∅
    (DictReader [sample_header; ["T1"; "1.50"; "10"; "2"]]
     ++ {[ TS_KEY := Some "T2"; "Kills" := Some "many"; "Deaths" := Some "1";
           "Skill" := Some "1.0" ]}
     :: DictReader sample_records)
  = Raise ValueError.
Proof.
  apply (read_rows_first_error sample_int sample_float).
  - repeat constructor; vm_compute; reflexivity.
  - vm_compute. reflexivity.
  - vm_compute. reflexivity.
Defined.

Lemma read_rows_last_row_witness :
  ∃ r, parse_record sample_int sample_float
         (dict_of_items (zip_fields sample_header ["T1"; "0.75"; "5"; "5"])) = Ok r ∧
       (<["T2" := {| Skill := 2; Kills := 0; Deaths := 0; KD := 0 |}]>
         (<["T1" := {| Skill := 3 # 4; Kills := 5; Deaths := 5; KD := 5 / 5 |}]> ∅)
          : dataset) !! "T1" = Some r.
Proof.
  apply (read_rows_last_row sample_int sample_float
           (DictReader [sample_header; ["T1"; "1.50"; "10"; "2"]; ["T2"; "2.00"; "0"; "0"]])
           [] _ ∅).
  - vm_compute. reflexivity.
  - vm_compute. reflexivity.
  - discriminate.
  - constructor.
Defined.

Lemma read_game_data_keys_witness :
  (∀ ts, is_Some (sample_dataset !! ts) ↔
         ts ≠ "" ∧ ∃ row, row ∈ DictReader sample_records ∧ resolve_ts row = Some ts) ∧
  sample_dataset !! "" = None ∧
  size sample_dataset ≤ length (DictReader sample_records).
Proof.
  apply (read_game_data_keys sample_int sample_float). vm_compute. reflexivity.
Defined.

Lemma read_rows_same_columns_witness :
  read_rows sample_int sample_float ∅
    [ {[ TS_KEY := Some "T1"; "Kills" := Some "10"; "Deaths" := Some "2";
         "Skill" := Some "1.50"; "Map" := Some "Rust" ]} ]
  = read_rows sample_int sample_float ∅
    [ {[ TS_KEY := Some "T1"; "Kills" := Some "10"; "Deaths" := Some "2";
         "Skill" := Some "1.50" ]} ].
Proof.
  apply (read_rows_same_columns sample_int sample_float).
  repeat constructor; vm_compute; reflexivity.
Defined.

(** ** The chart of non-empty series *)

(** With the positions 1..n of two series of n > 0 values, as the driver
    builds them, the whole figure is determined by the statistics of each
    series. *)
Lemma generate_chart_nonempty (kd skill : list Q) (keys : list string) :
  kd ≠ [] → length skill = length kd →
  ∃ kmin kmax kavg kspan ki kj smin smax savg sspan si sj,
    compute_series_stats kd = Ok (kmin, kmax, kavg, kspan, ki, kj) ∧
    compute_series_stats skill = Ok (smin, smax, savg, sspan, si, sj) ∧
    generate_chart (seq 1 (length kd)) kd skill keys
    = Ok {| chart_title := "Game Statistics Over Time";
            ax1 := {| ylabel := KD_LABEL;
                      ylim := Some ((- kspan)%Q, kspan);
                      artists :=
                        [Line (seq 1 (length kd)) kd KD_COLOR KD_LABEL;
                         Marker (S ki) kmin KD_COLOR
                           ("Min " +:+ KD_LABEL +:+ ": " +:+ format_2f kmin);
                         Marker (S kj) kmax KD_COLOR
                           ("Max " +:+ KD_LABEL +:+ ": " +:+ format_2f kmax);
                         HLine kavg KD_COLOR
                           ("Avg " +:+ KD_LABEL +:+ ": " +:+ format_2f kavg)] |};
            ax2 := {| ylabel := SKILL_LABEL;
                      ylim := Some ((- sspan)%Q, sspan);
                      artists :=
                        [Line (seq 1 (length kd)) skill SKILL_COLOR SKILL_LABEL;
                         Marker (S si) smin SKILL_COLOR
                           ("Min " +:+ SKILL_LABEL +:+ ": " +:+ format_2f smin);
                         Marker (S sj) smax SKILL_COLOR
                           ("Max " +:+ SKILL_LABEL +:+ ": " +:+ format_2f smax);
                         HLine savg SKILL_COLOR
                           ("Avg " +:+ SKILL_LABEL +:+ ": " +:+ format_2f savg)] |};
            legend :=
              [KD_LABEL;
               "Min " +:+ KD_LABEL +:+ ": " +:+ format_2f kmin;
               "Max " +:+ KD_LABEL +:+ ": " +:+ format_2f kmax;
               "Avg " +:+ KD_LABEL +:+ ": " +:+ format_2f kavg;
               SKILL_LABEL;
               "Min " +:+ SKILL_LABEL +:+ ": " +:+ format_2f smin;
               "Max " +:+ SKILL_LABEL +:+ ": " +:+ format_2f smax;
               "Avg " +:+ SKILL_LABEL +:+ ": " +:+ format_2f savg];
            xticks := py_range_step 1 (length keys + 1) XTICK_STEP |}.
Proof.
  intros Hkd Hlen.
  assert (skill ≠ []) as Hskill by (destruct kd, skill; done).
  set (idx := seq 1 (length kd)).
  assert (length idx = length kd) as Hidx by apply length_seq.
  unfold generate_chart, plot_line.
  rewrite !decide_True by congruence. rewrite !bind_Ok.
  set (a1 := add_artist (new_axes KD_LABEL) _).
  set (a2 := add_artist (new_axes SKILL_LABEL) _).
  destruct (annotate_series_stats_ok a1 idx kd KD_COLOR KD_LABEL Hkd Hidx)
    as (kmin & kmax & kavg & kspan & ki & kj & x1 & x2 & Hk & Hx1 & Hx2 & Hann1).
  destruct (annotate_series_stats_ok a2 idx skill SKILL_COLOR SKILL_LABEL Hskill)
    as (smin & smax & savg & sspan & si & sj & y1 & y2 & Hs & Hy1 & Hy2 & Hann2);
    [congruence|].
  apply lookup_seq in Hx1 as [-> _]. apply lookup_seq in Hx2 as [-> _].
  apply lookup_seq in Hy1 as [-> _]. apply lookup_seq in Hy2 as [-> _].
  exists kmin, kmax, kavg, kspan, ki, kj, smin, smax, savg, sspan, si, sj.
  split; [done|]. split; [done|].
  destruct kd as [|k0 kd']; [done|]. destruct skill as [|s0 skill']; [done|].
  rewrite Hann1, bind_Ok, Hann2, bind_Ok. reflexivity.
Qed.



(** X8: the legend of that chart merges the entries of both axes, those of
    the ratio first: for each axis the label of the line, then the minimum,
    the maximum and the average, each with its value to two decimals. *)
Theorem generate_chart_legend (kd skill : list Q) (keys : list string) :
  kd ≠ [] → length skill = length kd →
  ∃ fig kmin kmax kavg kspan ki kj smin smax savg sspan si sj,
    generate_chart (seq 1 (length kd)) kd skill keys = Ok fig ∧
    compute_series_stats kd = Ok (kmin, kmax, kavg, kspan, ki, kj) ∧
    compute_series_stats skill = Ok (smin, smax, savg, sspan, si, sj) ∧
    legend fig
    = ["K/D Ratio";
       "Min K/D Ratio: " +:+ format_2f kmin;
       "Max K/D Ratio: " +:+ format_2f kmax;
       "Avg K/D Ratio: " +:+ format_2f kavg;
       "Skill";
       "Min Skill: " +:+ format_2f smin;
       "Max Skill: " +:+ format_2f smax;
       "Avg Skill: " +:+ format_2f savg].
Proof.
  intros Hkd Hlen.
  destruct (generate_chart_nonempty kd skill keys Hkd Hlen)
    as (kmin & kmax & kavg & kspan & ki & kj & smin & smax & savg & sspan & si & sj
        & Hk & Hs & Hfig).
  eexists _, kmin, kmax, kavg, kspan, ki, kj, smin, smax, savg, sspan, si, sj.
  split; [exact Hfig|]. split; [done|]. split; [done|]. reflexivity.
Qed.

Lemma generate_chart_legend_witness :
  ∃ fig kmin kmax kavg kspan ki kj smin smax savg sspan si sj,
    generate_chart (seq 1 (length [5; 0; 1]%Q)) [5; 0; 1]%Q [3 # 2; 2; 3 # 4]%Q
      ["T1"; "T2"; "T3"] = Ok fig ∧
    compute_series_stats [5; 0; 1]%Q = Ok (kmin, kmax, kavg, kspan, ki, kj) ∧
    compute_series_stats [3 # 2; 2; 3 # 4]%Q = Ok (smin, smax, savg, sspan, si, sj) ∧
    legend fig
    = ["K/D Ratio";
       "Min K/D Ratio: " +:+ format_2f kmin;
       "Max K/D Ratio: " +:+ format_2f kmax;
       "Avg K/D Ratio: " +:+ format_2f kavg;
       "Skill";
       "Min Skill: " +:+ format_2f smin;
       "Max Skill: " +:+ format_2f smax;
       "Avg Skill: " +:+ format_2f savg].
Proof.
  apply (generate_chart_legend [5; 0; 1]%Q [3 # 2; 2; 3 # 4]%Q ["T1"; "T2"; "T3"]).
  - discriminate.
  - reflexivity.
Defined.

(** ** The ticks of the x axis *)

Lemma py_range_step_elem (start stop step x : nat) :
  0 < step →
  x ∈ py_range_step start stop step ↔
  start ≤ x ∧ x < stop ∧ (x - start) mod step = 0.
Proof.
  intros Hstep. unfold py_range_step.
  rewrite list_elem_of_In, in_map_iff.
  set (q := (stop - start + step - 1) / step).
  pose proof (Nat.Div0.mul_div_le (stop - start + step - 1) step) as Hq1.
  pose proof (Nat.mul_succ_div_gt (stop - start + step - 1) step) as Hq2.
  fold q in Hq1, Hq2. split.
  - intros (k & <- & Hk%in_seq).
    replace (start + k * step - start) with (k * step) by lia.
    rewrite Nat.Div0.mod_mul. split; [lia|]. split; [nia | done].
  - intros (Hlo & Hhi & Hmod).
    apply Nat.Lcm0.mod_divide in Hmod as [k Hk].
    exists k. split; [lia|]. apply in_seq. nia.
Qed.

(** X9: whatever the series are, the ticks of a chart that is drawn are
    the game numbers 1, 26, 51, ... up to the number of timestamps: every
    25th game, starting with the first. *)
Theorem generate_chart_xticks (game_indices : list nat) (kd skill : list Q)
    (keys : list string) (fig : chart_figure) :
  generate_chart game_indices kd skill keys = Ok fig →
  ∀ t, t ∈ xticks fig ↔ 1 ≤ t ∧ t ≤ length keys ∧ (t - 1) mod 25 = 0.
Proof.
  intros Hfig t. unfold generate_chart in Hfig.
  apply bind_inv in Hfig as (a1 & _ & Hfig).
  apply bind_inv in Hfig as (a2 & _ & Hfig).
  apply bind_inv in Hfig as (a1' & _ & Hfig).
  apply bind_inv in Hfig as (a2' & _ & [= <-]).
  cbn [xticks]. unfold XTICK_STEP. rewrite py_range_step_elem by lia. lia.
Qed.

Lemma generate_chart_xticks_witness :
  1 ∈ xticks sample_chart ↔ 1 ≤ 1 ∧ 1 ≤ 3 ∧ (1 - 1) mod 25 = 0.
Proof.
  apply (generate_chart_xticks [1; 2; 3] [10 # 2; 0; 5 # 5]%Q [3 # 2; 2; 3 # 4]%Q
           ["T1"; "T2"; "T3"] sample_chart).
  vm_compute. reflexivity.
Defined.

(** ** The table, as a whole *)

(** X10: [save_table_pdf] never raises, and it leaves every document other
    than the one at the output path as it was; for a dataset without
    records it does nothing at all, so that no file appears. *)
Theorem save_table_pdf_frame (d : dataset) (output_path : string) (w : world) :
  ∃ w',
    save_table_pdf d output_path w = Ok w' ∧
    (∀ p, p ≠ output_path → files w' !! p = files w !! p) ∧
    (size d = 0 → w' = w) ∧
    (size d ≠ 0 → ∃ fig, files w' !! output_path = Some [TablePage fig]).
Proof.
  destruct (decide (size d = 0)) as [Hzero|Hpos].
  - exists w. split; [|done].
    unfold save_table_pdf. rewrite sorted_keys_length, Hzero. by destruct w.
  - destruct (save_table_pdf_persists_last_page d output_path w Hpos)
      as (w' & fig & Hrun & Hfile & _).
    exists w'. split; [done|]. split; [|split; [done | eauto]].
    unfold save_table_pdf in Hrun.
    destruct (save_table_pages_ok d (sorted_keys d)
                ((length (sorted_keys d) + ROWS_PER_PAGE - 1) / ROWS_PER_PAGE)
                output_path
                (py_range ((length (sorted_keys d) + ROWS_PER_PAGE - 1) / ROWS_PER_PAGE))
                w (sorted_keys_present d)) as (figs & _ & Hrun').
    rewrite Hrun' in Hrun. injection Hrun as <-. cbn [files].
    intros p Hp. destruct (last figs); [by rewrite lookup_insert_ne | done].
Qed.

(** X11: read page after page, the data rows of the table are the records
    of the dataset in ascending order of timestamp, each once: the
    timestamp, the skill to two decimals, the kills, the deaths and the
    ratio to two decimals. *)
Theorem save_table_pdf_complete (d : dataset) (output_path : string) (w : world) :
  ∃ w' figs,
    save_table_pdf d output_path w = Ok w' ∧
    savefig_log w'
    = savefig_log w ++ map (λ fig, (output_path, TablePage fig)) figs ∧
    Forall (λ fig, head (cellText fig) = Some TABLE_HEADERS) figs ∧
    Forall2 (λ ts row, ∃ r, d !! ts = Some r ∧
               row = [ts; format_2f (Skill r); pretty (Kills r);
                      pretty (Deaths r); format_2f (KD r)])
      (sorted_keys d) (concat (map (λ fig, tail (cellText fig)) figs)).
Proof.
  unfold save_table_pdf.
  set (keys := sorted_keys d).
  set (total := (length keys + ROWS_PER_PAGE - 1) / ROWS_PER_PAGE).
  pose proof (sorted_keys_present d) as Hall. fold keys in Hall.
  destruct (save_table_pages_ok d keys total output_path (py_range total) w Hall)
    as (figs & Hfigs & Hrun).
  eexists _, figs. split; [exact Hrun|]. split; [done|].
  assert (Forall (λ fig, head (cellText fig) = Some TABLE_HEADERS) figs
          ∧ Forall2 (λ ts row, ∃ r, d !! ts = Some r ∧
                       row = [ts; format_2f (Skill r); pretty (Kills r);
                              pretty (Deaths r); format_2f (KD r)])
              (concat (map (λ i, take ROWS_PER_PAGE (drop (i * ROWS_PER_PAGE) keys))
                           (py_range total)))
              (concat (map (λ fig, tail (cellText fig)) figs))) as [Hhead Hrows].
  { clear Hrun. revert Hfigs. generalize (py_range total). intros pages Hfigs.
    induction Hfigs as [|page fig pages figs Hfig _ [IH1 IH2]].
    { split; constructor. }
    destruct (table_page_ok d keys total page Hall) as (rows & Hrows & Hfig').
    rewrite Hfig' in Hfig. injection Hfig as <-.
    split; [by constructor|]. cbn [map concat cellText tail].
    apply Forall2_app; [|done].
    apply table_rows_spec; [by apply Forall_take, Forall_drop | done]. }
  split; [done|].
  unfold py_range in Hrows. rewrite blocks_concat in Hrows; [done|].
  destruct (page_count_ceiling (length keys)) as [Hlo _]. fold total in Hlo. lia.
Qed.

(** ** The driver *)

Lemma lstrip_quotes_length (s : string) :
  String.length (lstrip_quotes s) ≤ String.length s.
Proof.
  induction s as [|c s IH]; simpl; [done|].
  destruct (is_quote c); simpl; lia.
Qed.

(** A string that [lstrip_quotes] leaves alone is empty or starts with a
    character that is not a quote. *)
Lemma lstrip_quotes_fixed_app (s t : string) :
  lstrip_quotes s = s → s ≠ "" → lstrip_quotes (s +:+ t) = s +:+ t.
Proof.
  destruct s as [|c s]; [done|]. intros Hfix _. simpl in *.
  destruct (is_quote c); [|done].
  pose proof (lstrip_quotes_length s) as Hlen. rewrite Hfix in Hlen.
  simpl in Hlen. lia.
Qed.

Lemma rstrip_quotes_snoc (s : string) (q : ascii) :
  is_quote q = true → rstrip_quotes (s +:+ String q "") = rstrip_quotes s.
Proof.
  intros Hq. induction s as [|c s IH]; simpl.
  - by rewrite Hq.
  - change (String.append s (String q "")) with (s +:+ String q "").
    by rewrite IH.
Qed.

Lemma strip_quotes_quoted (path : string) (q1 q2 : ascii) :
  is_quote q1 = true → is_quote q2 = true →
  lstrip_quotes path = path → rstrip_quotes path = path →
  strip_quotes (String q1 (path +:+ String q2 "")) = path ∧
  strip_quotes path = path.
Proof.
  intros Hq1 Hq2 Hl Hr. unfold strip_quotes. rewrite Hl, Hr. split; [|done].
  simpl. rewrite Hq1.
  destruct (decide (path = "")) as [->|Hne].
  - simpl. by rewrite Hq2.
  - rewrite lstrip_quotes_fixed_app by done. by rewrite rstrip_quotes_snoc.
Qed.

Section DriverFacts.

Variable py_int : string → option Z.
Variable py_float : string → option Q.
Variable sep : string.

#[local] Abbreviation run_main := (main py_int py_float sep).
#[local] Abbreviation read_game_data := (read_game_data py_int py_float).
#[local] Abbreviation graph_pdf_path := (path_join sep OUTPUT_DIR GRAPH_PDF_NAME).
#[local] Abbreviation table_pdf_path := (path_join sep OUTPUT_DIR TABLE_PDF_NAME).


(** X12: a path typed between quotes is the path: for a path that neither
    starts nor ends with a quote, [main] does the same whether the answer is
    the path or the path with one quote character in front and one behind. *)
Theorem main_quoted_path (disk : gmap string (list (list string)))
    (path : string) (q1 q2 : ascii) (p : process) :
  is_quote q1 = true → is_quote q2 = true →
  lstrip_quotes path = path → rstrip_quotes path = path →
  run_main disk (String q1 (path +:+ String q2 "")) p = run_main disk path p.
Proof.
  intros Hq1 Hq2 Hl Hr.
  destruct (strip_quotes_quoted path q1 q2 Hq1 Hq2 Hl Hr) as [Hquoted Hbare].
  unfold main. by rewrite Hquoted, Hbare.
Qed.

(** X13: when the file is missing, [main] says so and creates nothing, not
    even the output directory; when the file holds no row with a timestamp,
    [main] creates the output directory, reports that no valid data was
    found, and writes no document. *)
Theorem main_no_output (disk : gmap string (list (list string)))
    (answer : string) (p : process) :
  (disk !! strip_quotes answer = None →
   run_main disk answer p
   = Ok {| pdfs := pdfs p;
           dirs := dirs p;
           stdout := stdout p ++ ["Enter file path: ";
                                  "Error: File '" +:+ strip_quotes answer
                                    +:+ "' does not exist."] |}) ∧
  (∀ records d,
     disk !! strip_quotes answer = Some records →
     read_game_data records = Ok d → size d = 0 →
     run_main disk answer p
     = Ok {| pdfs := pdfs p;
             dirs := {[OUTPUT_DIR]} ∪ dirs p;
             stdout := stdout p ++ ["Enter file path: ";
                                    "No valid data found in the CSV."] |}).
Proof.
  split.
  - intros Hdisk. unfold main. rewrite Hdisk. unfold print. cbn [pdfs dirs stdout].
    by rewrite <- (assoc_L (++)).
  - intros records d Hdisk Hread Hsize. unfold main.
    rewrite Hdisk, Hread, bind_Ok, Hsize. unfold print, makedirs.
    cbn [pdfs dirs stdout]. by rewrite <- (assoc_L (++)).
Qed.


End DriverFacts.

Lemma main_quoted_path_witness :
  main sample_int sample_float "/" {[ "in.csv" := sample_records ]}
    (String "034" ("in.csv" +:+ String "039" "")) empty_process
  = main sample_int sample_float "/" {[ "in.csv" := sample_records ]}
      "in.csv" empty_process.
Proof.
  apply (main_quoted_path sample_int sample_float "/"); reflexivity.
Defined.

Lemma main_no_output_witness :
  main sample_int sample_float "/" {[ "in.csv" := bom_records ]} "in.csv" empty_process
  = Ok {| pdfs := empty_world;
          dirs := {[OUTPUT_DIR]} ∪ ∅;
          stdout := [] ++ ["Enter file path: "; "No valid data found in the CSV."] |}.
Proof.
  apply (proj2 (main_no_output sample_int sample_float "/"
                  {[ "in.csv" := bom_records ]} "in.csv" empty_process)
           bom_records ∅).
  - vm_compute. reflexivity.
  - vm_compute. reflexivity.
  - reflexivity.
Defined.


(** The chart that [main] saves for the three-row input. *)
Example generate_chart_sample :
  generate_chart [1; 2; 3] [10 # 2; 0; 5 # 5]%Q [3 # 2; 2; 3 # 4]%Q ["T1"; "T2"; "T3"]
  = Ok sample_chart.
Proof. vm_compute. reflexivity. Qed.

(** ** Rows that lack a field *)

Lemma zip_fields_short_lookup (ks : list string) (d : csv_row) (k : string) :
  k ∈ ks →
  foldl (λ d kv, <[kv.1 := kv.2]> d) d (zip_fields ks []) !! k = Some None.
Proof.
  revert d. induction ks as [|k' ks IH]; intros d Hk; [by apply elem_of_nil in Hk|].
  simpl. destruct (decide (k ∈ ks)) as [Hin|Hnotin]; [by apply IH|].
  apply elem_of_cons in Hk as [->|Hk]; [|done].
  rewrite foldl_insert_notin by (by rewrite zip_fields_keys).
  apply lookup_insert_eq.
Qed.

Section MissingFields.

Variable py_int : string → option Z.
Variable py_float : string → option Q.

(** X16: under a plain header, a first data row that has a timestamp stops
    the parse with [KeyError] when the header has no Kills column, and with
    [TypeError] when the header has one but the row ends after the
    timestamp. *)
Theorem read_game_data_missing_kills (others vals : list string) (ts : string)
    (rest : list (list string)) :
  TS_KEY ∉ others → TS_KEY_PREFIXED ∉ others → ts ≠ "" →
  ("Kills" ∉ others →
   read_game_data py_int py_float ((TS_KEY :: others) :: (ts :: vals) :: rest)
   = Raise KeyError) ∧
  ("Kills" ∈ others →
   read_game_data py_int py_float ((TS_KEY :: others) :: [ts] :: rest)
   = Raise TypeError).
Proof.
  intros H1 H2 Hne. unfold read_game_data, DictReader.
  rewrite !filter_cons_True by done. cbn [map read_rows]. split.
  - intros Hk.
    rewrite (read_row_store _ _ _ _ ts (plain_header_resolved others vals ts H1 H2) Hne).
    unfold parse_record, dict_item, dict_of_items.
    rewrite (foldl_insert_notin _ _ "Kills"), lookup_empty; [reflexivity|].
    rewrite zip_fields_keys. apply not_elem_of_cons. split; [done | exact Hk].
  - intros Hk.
    rewrite (read_row_store _ _ _ _ ts (plain_header_resolved others [] ts H1 H2) Hne).
    unfold parse_record, dict_item, dict_of_items. cbn [zip_fields foldl].
    rewrite (zip_fields_short_lookup others _ "Kills" Hk). reflexivity.
Qed.

End MissingFields.

Lemma read_game_data_missing_kills_witness :
  ("Kills" ∉ ["Skill"; "Kills"; "Deaths"] →
   read_game_data sample_int sample_float
     (sample_header :: ["T1"; "1.50"; "10"; "2"] :: [])
   = Raise KeyError) ∧
  ("Kills" ∈ ["Skill"; "Kills"; "Deaths"] →
   read_game_data sample_int sample_float (sample_header :: ["T1"] :: [])
   = Raise TypeError).
Proof.
  apply (read_game_data_missing_kills sample_int sample_float
           ["Skill"; "Kills"; "Deaths"] ["1.50"; "10"; "2"] "T1" []);
    compute_done.
Defined.

(** * The arithmetic over doubles *)

(** ** The order of the doubles

    The comparison of the specification orders the doubles that are not NaN
    by sign, then exponent, then mantissa. *)

Module Binary64Facts.

Import Binary64.

Ltac compare_cases :=
  repeat match goal with
  | H : context [Z.compare ?x ?y] |- _ =>
      destruct (Z.compare_spec x y); simpl in H; try discriminate H
  | |- context [Z.compare ?x ?y] =>
      destruct (Z.compare_spec x y); simpl; try reflexivity
  | H : context [Pos.compare_cont Eq ?x ?y] |- _ =>
      change (Pos.compare_cont Eq x y) with (Pos.compare x y) in H;
      destruct (Pos.compare_spec x y); simpl in H; try discriminate H
  | |- context [Pos.compare_cont Eq ?x ?y] =>
      change (Pos.compare_cont Eq x y) with (Pos.compare x y);
      destruct (Pos.compare_spec x y); simpl; try reflexivity
  end.

Ltac float_cases :=
  unfold flt, fgt, fle, fabs, is_nan, SFltb, SFleb, SFabs;
  repeat match goal with
  | x : spec_float |- _ => destruct x as [[|]|[|]| |[|] ? ?]
  end;
  simpl; intros; try discriminate; try reflexivity;
  compare_cases; subst; try discriminate; try reflexivity; try (exfalso; lia).

Lemma flt_irrefl (a : float) : flt a a = false.
Proof. float_cases. Qed.

Lemma flt_asym (a b : float) : flt a b = true → flt b a = false.
Proof. float_cases. Qed.

Lemma flt_trans (a b c : float) :
  is_nan c = false → flt a b = true → flt c b = false → flt a c = true.
Proof. float_cases. Qed.

Lemma fgt_trans (a b c : float) :
  is_nan c = false → fgt a b = true → fgt c b = false → fgt a c = true.
Proof. float_cases. Qed.

Lemma flt_false_fle (a b : float) :
  is_nan a = false → is_nan b = false → flt a b = false → fle b a = true.
Proof. float_cases. Qed.





Lemma fle_not_nan (a b : float) :
  fle a b = true → is_nan a = false ∧ is_nan b = false.
Proof. float_cases; by split. Qed.



(** ** What the conversions return *)

Lemma float_of_int_Ok (n : Z) (x : float) :
  float_of_int n = Ok x → x = round_int n ∧ ∀ s, x ≠ S754_infinity s.
Proof.
  unfold float_of_int. destruct (round_int n); intros [= <-]; by split.
Qed.

Lemma int_truediv_Ok (a b : Z) (x : float) :
  int_truediv a b = Ok x →
  b ≠ 0%Z ∧ x = round_ratio a b ∧ ∀ s, x ≠ S754_infinity s.
Proof.
  unfold int_truediv. destruct (Z.eqb_spec b 0); [done|].
  destruct (round_ratio a b); intros [= <-]; by repeat split.
Qed.

(** The values of the ratio on a few pairs: the doubles nearest to 1/3 and
    to 1/49, exact quotients, a zero with the sign of the divisor, and the
    two overflows. *)
Example parse_kd_ratio_values :
  parse_kd_ratio 1 3 = Ok (S754_finite false 6004799503160661 (-54)) ∧
  parse_kd_ratio 1 49 = Ok (S754_finite false 5882252574524729 (-58)) ∧
  parse_kd_ratio 10 2 = Ok (S754_finite false 5629499534213120 (-50)) ∧
  parse_kd_ratio 5 0 = Ok (S754_finite false 5629499534213120 (-50)) ∧
  parse_kd_ratio 0 (-5) = Ok (S754_zero true) ∧
  parse_kd_ratio (10 ^ 309) 0 = Raise OverflowError ∧
  parse_kd_ratio (10 ^ 400) 3 = Raise OverflowError.
Proof. vm_compute. repeat split. Qed.

(** ** The parser over doubles *)

Section ParserFacts64.

Variable py_int : string → option Z.
Variable py_float : string → option float.

#[local] Abbreviation read_row := (read_row py_int py_float).
#[local] Abbreviation read_rows := (read_rows py_int py_float).
#[local] Abbreviation parse_record := (parse_record py_int py_float).

Lemma read_row_skip64 (d : gmap string game_record) (row : csv_row) :
  truthy (resolve_ts row) = false → read_row d row = Ok d.
Proof. intros H. unfold Binary64.read_row. by rewrite H. Qed.

Lemma read_row_store64 (d : gmap string game_record) (row : csv_row) (ts : string) :
  resolve_ts row = Some ts → ts ≠ "" →
  read_row d row = (r ← parse_record row; Ok (<[ts := r]> d)).
Proof.
  intros Hts Hne. unfold Binary64.read_row. rewrite Hts.
  assert (truthy (Some ts) = true) as -> by (apply truthy_Some; eauto).
  reflexivity.
Qed.

(** Every stored record was parsed from a row with that timestamp. *)
Lemma read_rows_provenance64 (rows : list csv_row)
    (d0 d : gmap string game_record) (ts : string) (r : game_record) :
  read_rows d0 rows = Ok d → d !! ts = Some r →
  d0 !! ts = Some r ∨
  ∃ row, row ∈ rows ∧ resolve_ts row = Some ts ∧ ts ≠ "" ∧ parse_record row = Ok r.
Proof.
  revert d0. induction rows as [|row rows IH]; intros d0 Hrun Hd; simpl in Hrun.
  { left. congruence. }
  apply bind_inv in Hrun as (d1 & Hrow & Hrest).
  destruct (IH _ Hrest Hd) as [H1|(row' & Hin & ?)].
  2:{ right. exists row'. split; [by right | done]. }
  destruct (truthy (resolve_ts row)) eqn:Htr.
  - apply truthy_Some in Htr as (ts' & Hts & Hne).
    rewrite (read_row_store64 _ _ _ Hts Hne) in Hrow.
    apply bind_inv in Hrow as (r' & Hparse & [= <-]).
    destruct (decide (ts' = ts)) as [->|Hneq].
    + rewrite lookup_insert_eq in H1. injection H1 as ->.
      right. exists row. split; [by left | done].
    + rewrite lookup_insert_ne in H1 by done. by left.
  - rewrite read_row_skip64 in Hrow by done. injection Hrow as ->. by left.
Qed.

(** C1: every record stored by the parser comes from a row whose Kills and
    Deaths fields were accepted as the integers [Kills r] and [Deaths r].
    When [Deaths r] is zero, its ratio is [Kills r] converted to a float,
    the double nearest to it; otherwise its ratio is [Kills r / Deaths r],
    the double nearest to the quotient.  In both cases the conversion did
    not overflow: the ratio is not an infinity. *)
Theorem C1_stored_ratio_double (records : list (list string))
    (d : gmap string game_record) (ts : string) (r : game_record) :
  read_game_data py_int py_float records = Ok d →
  d !! ts = Some r →
  (∃ row, row ∈ DictReader records ∧ resolve_ts row = Some ts ∧
          (dict_item row "Kills" ≫= int_of py_int) = Ok (Kills r) ∧
          (dict_item row "Deaths" ≫= int_of py_int) = Ok (Deaths r)) ∧
  (Deaths r = 0%Z →
     float_of_int (Kills r) = Ok (KD r) ∧ KD r = round_int (Kills r)) ∧
  (Deaths r ≠ 0%Z →
     int_truediv (Kills r) (Deaths r) = Ok (KD r) ∧
     KD r = round_ratio (Kills r) (Deaths r)) ∧
  (∀ s, KD r ≠ S754_infinity s).
Proof.
  intros Hrun Hd. unfold read_game_data in Hrun.
  destruct (read_rows_provenance64 _ _ _ _ _ Hrun Hd)
    as [Hempty|(row & Hin & Hts & _ & Hparse)].
  { by rewrite lookup_empty in Hempty. }
  unfold Binary64.parse_record in Hparse.
  apply bind_inv in Hparse as (kills & Hk & Hparse).
  apply bind_inv in Hparse as (deaths & Hdt & Hparse).
  apply bind_inv in Hparse as (skill & Hs & Hparse).
  apply bind_inv in Hparse as (ratio & Hratio & [= <-]). simpl.
  split; [by exists row|]. unfold parse_kd_ratio in Hratio.
  destruct (Z.eqb_spec deaths 0) as [->|Hne].
  - destruct (float_of_int_Ok _ _ Hratio) as [Hval Hfin].
    split; [done|]. split; [done | exact Hfin].
  - destruct (int_truediv_Ok _ _ _ Hratio) as (_ & Hval & Hfin).
    split; [done|]. split; [done | exact Hfin].
Qed.

End ParserFacts64.

Lemma C1_stored_ratio_double_witness :
  (∃ row, row ∈ DictReader sample_records ∧ resolve_ts row = Some "T1" ∧
          (dict_item row "Kills" ≫= int_of sample_int) = Ok 10%Z ∧
          (dict_item row "Deaths" ≫= int_of sample_int) = Ok 2%Z) ∧
  (2%Z = 0%Z →
     float_of_int 10 = Ok (S754_finite false 5629499534213120 (-50)) ∧
     S754_finite false 5629499534213120 (-50) = round_int 10) ∧
  (2%Z ≠ 0%Z →
     int_truediv 10 2 = Ok (S754_finite false 5629499534213120 (-50)) ∧
     S754_finite false 5629499534213120 (-50) = round_ratio 10 2) ∧
  (∀ s, S754_finite false 5629499534213120 (-50) ≠ S754_infinity s).
Proof.
  apply (C1_stored_ratio_double sample_int sample_double sample_records
           sample_dataset64 "T1"
           {| Skill := S754_finite false 6755399441055744 (-52);
              Kills := 10; Deaths := 2;
              KD := S754_finite false 5629499534213120 (-50) |}).
  - vm_compute. reflexivity.
  - vm_compute. reflexivity.
Defined.

(** ** The statistics over doubles *)

Lemma max_of_three (a b c : float) :
  min_max fgt Ok [a; b; c]
  = Ok (if fgt c (if fgt b a then b else a) then c
        else if fgt b a then b else a).
Proof.
  simpl. destruct (fgt b a); simpl; by destruct (fgt c _).
Qed.



Lemma truediv_pos64 (x : float) (n : nat) :
  n ≠ 0 → truediv x n = Ok (fdiv x (round_int (Z.of_nat n))).
Proof. by destruct n. Qed.

Section StatisticsFacts.

Variable py_sum : list float → float.

(** What [compute_series_stats] returns on a non-empty series without a
    NaN. *)
Lemma compute_series_stats_ok64 (series : list float) :
  series ≠ [] →
  Forall (λ x, is_nan x = false) series →
  ∃ smin smax span min_idx max_idx,
    compute_series_stats py_sum series
    = Ok (smin, smax,
          fdiv (py_sum series) (round_int (Z.of_nat (length series))),
          span, min_idx, max_idx) ∧
    min_max fgt Ok [fabs smin; fabs smax; EPSILON] = Ok span ∧
    first_extreme flt series min_idx smin ∧
    first_extreme fgt series max_idx smax.
Proof.
  intros Hne Hord.
  destruct (min_max_first_extreme flt (λ x, is_nan x = false) flt_irrefl
              flt_asym flt_trans series Hord Hne)
    as (i & smin & Hmin & Hmin_idx & Hfirst_min).
  destruct (min_max_first_extreme fgt (λ x, is_nan x = false) flt_irrefl
              (λ a b, flt_asym b a) fgt_trans series Hord Hne)
    as (j & smax & Hmax & Hmax_idx & Hfirst_max).
  exists smin, smax. eexists. exists i, j.
  split; [|split; [apply max_of_three | done]].
  unfold compute_series_stats.
  rewrite Hmin, bind_Ok, Hmax, bind_Ok, truediv_pos64, bind_Ok.
  - by rewrite max_of_three, bind_Ok, Hmin_idx, bind_Ok, Hmax_idx, bind_Ok.
  - by destruct series.
Qed.

(** Every number of the series lies between the two extrema. *)
Lemma first_extreme_bounds (series : list float) (i j : nat) (smin smax x : float) :
  Forall (λ x, is_nan x = false) series →
  first_extreme flt series i smin →
  first_extreme fgt series j smax →
  x ∈ series →
  fle smin x = true ∧ fle x smax = true.
Proof.
  intros Hord [Hi Hmin] [Hj Hmax] Hx.
  assert (∀ k y, series !! k = Some y → is_nan y = false) as Hnan.
  { intros k y Hk. rewrite Forall_lookup in Hord. by apply (Hord k). }
  apply list_elem_of_lookup in Hx as [k Hk].
  destruct (Hmin _ _ Hk) as [Hlo _]. destruct (Hmax _ _ Hk) as [Hhi _].
  split; apply flt_false_fle; eauto.
Qed.

(** C5: on a non-empty series without a NaN, [compute_series_stats]
    returns; its minimum and maximum are numbers of the series that bound
    every number of the series in the order of the doubles; its two
    positions are the first 0-based indices holding them (every earlier
    number is strictly above the minimum, strictly below the maximum); and
    its average is the double [sum(series) / len(series)], the quotient of
    the rounded sum by the length, itself rounded. *)
Theorem C5_extrema_first_occurrence_double (series : list float) :
  series ≠ [] →
  Forall (λ x, is_nan x = false) series →
  ∃ smin smax avg span min_idx max_idx,
    compute_series_stats py_sum series
    = Ok (smin, smax, avg, span, min_idx, max_idx) ∧
    first_extreme flt series min_idx smin ∧
    first_extreme fgt series max_idx smax ∧
    Forall (λ x, fle smin x = true ∧ fle x smax = true) series ∧
    avg = fdiv (py_sum series) (round_int (Z.of_nat (length series))).
Proof.
  intros Hne Hord.
  destruct (compute_series_stats_ok64 series Hne Hord)
    as (smin & smax & span & i & j & Hrun & _ & Hmin & Hmax).
  exists smin, smax. eexists. exists span, i, j.
  split_and!; [exact Hrun | exact Hmin | exact Hmax | | reflexivity].
  apply Forall_forall. intros x Hx.
  by apply (first_extreme_bounds series i j).
Qed.


End StatisticsFacts.

Lemma C5_extrema_first_occurrence_double_witness :
  ∃ smin smax avg span min_idx max_idx,
    compute_series_stats sum_left sample_series
    = Ok (smin, smax, avg, span, min_idx, max_idx) ∧
    first_extreme flt sample_series min_idx smin ∧
    first_extreme fgt sample_series max_idx smax ∧
    Forall (λ x, fle smin x = true ∧ fle x smax = true) sample_series ∧
    avg = fdiv (sum_left sample_series)
               (round_int (Z.of_nat (length sample_series))).
Proof.
  apply (C5_extrema_first_occurrence_double sum_left sample_series).
  - discriminate.
  - repeat constructor.
Defined.


(** The statistics of the two sample series: 1.0 first at position 1 and
    7.0 first at position 3, average 3.8; -3.0 at position 0 and 2.0 at
    position 2, average 0.0 and span 3.0. *)
Example compute_series_stats_samples :
  compute_series_stats sum_left sample_series
  = Ok (one, S754_finite false 7881299347898368 (-50),
        S754_finite false 8556839292003942 (-51),
        S754_finite false 7881299347898368 (-50), 1, 3) ∧
  compute_series_stats sum_left sample_signed_series
  = Ok (S754_finite true 6755399441055744 (-51),
        S754_finite false 4503599627370496 (-51),
        S754_zero false,
        S754_finite false 6755399441055744 (-51), 0, 2).
Proof. vm_compute. by split. Qed.

(** The statistics of a series that starts with a NaN are all NaN: the
    minimum is not below the 1.0 that follows it, nor the maximum above it;
    with the NaN last, the extrema ignore it.  The average of three times
    0.1 is the double after 0.1, above the maximum and not the mean of the
    three numbers. *)
Lemma C5_nan_and_rounding :
  compute_series_stats sum_left [S754_nan; one]
  = Ok (S754_nan, S754_nan, S754_nan, S754_nan, 0, 0) ∧
  fle S754_nan one = false ∧
  fle one S754_nan = false ∧
  compute_series_stats sum_left [one; S754_nan]
  = Ok (one, one, S754_nan, one, 0, 0) ∧
  compute_series_stats sum_left [tenth; tenth; tenth]
  = Ok (tenth, tenth, S754_finite false 7205759403792795 (-56), tenth, 0, 0) ∧
  flt tenth (S754_finite false 7205759403792795 (-56)) = true ∧
  ¬ (float_value (S754_finite false 7205759403792795 (-56))
     == (float_value tenth + float_value tenth + float_value tenth) / 3)%Q.
Proof.
  repeat split; try (vm_compute; reflexivity).
  vm_compute. discriminate.
Qed.


End Binary64Facts.
